(** * OpenAI web-search MCP server: request/response adaptation layer

    A shallow embedding of the two revisions of [index.ts] found in the
    repository:

    - revision 1.0.0, whose [performWebSearchResponses] reshapes a
      [messages] list into [instructions] / [input] before forwarding;
    - revision 1.1.2 ([src/index.ts]), whose [performWebSearchResponses]
      forwards the validated parameters as they are.

    JavaScript values that cross the wire are JSON values; [undefined] is
    the [None] of [option json].  The zod schemas are data, interpreted by
    [parse]; [fetch] is an oracle recorded in a log of outbound requests. *)

From Stdlib Require Import QArith.Qcanon.
From stdpp Require Import base option list strings pretty numbers.

Local Open Scope string_scope.
Local Open Scope list_scope.

Set Warnings "-register-all".

(** ** JSON values *)

Inductive json : Type :=
| JNull
| JBool (b : bool)
| JNum (q : Qc)
| JStr (s : string)
| JArr (items : list json)
| JObj (fields : list (string * json)).

(** First binding of a key in an object's field list. *)
Fixpoint assoc {A : Type} (k : string) (fields : list (string * A)) : option A :=
  match fields with
  | [] => None
  | (k', v) :: rest => if String.eqb k k' then Some v else assoc k rest
  end.

(** Property read [o.k]: [undefined] when the key is absent. *)
Definition prop (k : string) (o : json) : option json :=
  match o with
  | JObj fields => assoc k fields
  | _ => None
  end.

(** ** The zod fragment used by the schemas

    Semantics of the library calls the schemas are built from:
    [z.object] accepts plain objects, parses each key of its shape and
    drops unknown keys; [.optional()] accepts [undefined]; [z.union]
    returns the first option that accepts; [.describe] only attaches
    documentation. *)

Inductive ZodType : Type :=
| z_string
| z_string_length (n : nat)
| z_number
| z_boolean
| z_any
| z_literal (v : string)
| z_enum (values : list string)
| z_array (element : ZodType)
| z_object (shape : list (string * ZodType))
| z_optional (inner : ZodType)
| z_union (options : list ZodType)
| z_describe (inner : ZodType) (text : string).

(** An [undefined] element of a parsed array is rendered as [null], the
    way [JSON.stringify] prints it. *)
Definition element_value (r : option json) : json := default JNull r.

Fixpoint parse (t : ZodType) (data : option json) {struct t}
  : option (option json) :=
  match t with
  | z_string =>
      match data with Some (JStr _) => Some data | _ => None end
  | z_string_length n =>
      match data with
      | Some (JStr s) => if Nat.eqb (String.length s) n then Some data else None
      | _ => None
      end
  | z_number =>
      match data with Some (JNum _) => Some data | _ => None end
  | z_boolean =>
      match data with Some (JBool _) => Some data | _ => None end
  | z_any => Some data
  | z_literal v =>
      match data with
      | Some (JStr s) => if String.eqb s v then Some data else None
      | _ => None
      end
  | z_enum values =>
      match data with
      | Some (JStr s) => if existsb (String.eqb s) values then Some data else None
      | _ => None
      end
  | z_array element =>
      match data with
      | Some (JArr items) =>
          match mapM (fun x => element_value <$> parse element (Some x)) items with
          | Some out => Some (Some (JArr out))
          | None => None
          end
      | _ => None
      end
  | z_object shape =>
      match data with
      | Some (JObj fields) =>
          match
            (fix parse_shape (sh : list (string * ZodType))
               : option (list (string * json)) :=
               match sh with
               | [] => Some []
               | (k, t') :: rest =>
                   match parse t' (assoc k fields), parse_shape rest with
                   | Some (Some v), Some out => Some ((k, v) :: out)
                   | Some None, Some out => Some out
                   | _, _ => None
                   end
               end) shape
          with
          | Some out => Some (Some (JObj out))
          | None => None
          end
      | _ => None
      end
  | z_optional inner =>
      match data with
      | None => Some None
      | Some _ => parse inner data
      end
  | z_union options =>
      (fix first_valid (opts : list ZodType) : option (option json) :=
         match opts with
         | [] => None
         | t' :: rest =>
             match parse t' data with
             | Some v => Some v
             | None => first_valid rest
             end
         end) options
  | z_describe inner _ => parse inner data
  end.

(** The shape loop of [z_object], named so that lemmas can speak of it. *)
Fixpoint parse_shape (fields : list (string * json))
    (sh : list (string * ZodType)) : option (list (string * json)) :=
  match sh with
  | [] => Some []
  | (k, t') :: rest =>
      match parse t' (assoc k fields), parse_shape fields rest with
      | Some (Some v), Some out => Some ((k, v) :: out)
      | Some None, Some out => Some out
      | _, _ => None
      end
  end.

(** The option loop of [z_union]. *)
Fixpoint first_valid (data : option json) (opts : list ZodType)
  : option (option json) :=
  match opts with
  | [] => None
  | t' :: rest =>
      match parse t' data with
      | Some v => Some v
      | None => first_valid data rest
      end
  end.

(** ** JavaScript objects under construction

    An object literal may hold [undefined] values; [JSON.stringify] leaves
    those keys out.  Assignment replaces an existing key in place and
    appends a new one. *)

Definition js_object := list (string * option json).

Fixpoint assign (k : string) (v : option json) (o : js_object) : js_object :=
  match o with
  | [] => [(k, v)]
  | (k', v') :: rest =>
      if String.eqb k k' then (k, v) :: rest else (k', v') :: assign k v rest
  end.

Fixpoint defined_fields (o : js_object) : list (string * json) :=
  match o with
  | [] => []
  | (k, Some v) :: rest => (k, v) :: defined_fields rest
  | (_, None) :: rest => defined_fields rest
  end.

Definition JSON_stringify (o : js_object) : json := JObj (defined_fields o).

(** Truthiness of a JavaScript value that is JSON or [undefined]. *)
Definition truthy (v : option json) : bool :=
  match v with
  | None | Some JNull | Some (JBool false) | Some (JStr "") => false
  | Some (JNum q) => if Qc_eq_dec q 0%Qc then false else true
  | Some _ => true
  end.

(** [a || b] *)
Definition js_or (a b : option json) : option json :=
  if truthy a then a else b.

(** ** The network: one oracle, one log *)

Record Request := {
  url : string;
  method : string;
  headers : list (string * string);
  body : json
}.

(** What [await response.text()] and [await response.json()] give, with
    the status line.  [body_json] is [inl message] when the body is not
    JSON and [response.json()] rejects with a [SyntaxError]. *)
Record Response := {
  status : N;
  body_text : string;
  body_json : string + json
}.

(** [response.ok]: the status is in the range 200-299. *)
Definition ok (r : Response) : bool :=
  (200 <=? status r)%N && (status r <=? 299)%N.

(** Values a [throw] can carry here: [Error] instances with their
    message, or anything else. *)
Inductive Thrown : Type :=
| Error (message : string)
| NonError (value : json).

Inductive FetchOutcome : Type :=
| Rejected (reason : Thrown)
| Resolved (response : Response).

(** Computations that may throw and that append to the log of requests
    sent so far. *)
Definition IO (A : Type) : Type :=
  list Request -> (Thrown + A) * list Request.

Definition io_ret {A : Type} (a : A) : IO A := fun log => (inr a, log).

Definition io_throw {A : Type} (e : Thrown) : IO A := fun log => (inl e, log).

Definition io_bind {A B : Type} (m : IO A) (k : A -> IO B) : IO B :=
  fun log =>
    match m log with
    | (inl e, log') => (inl e, log')
    | (inr a, log') => k a log'
    end.

Definition io_try {A : Type} (m : IO A) (handler : Thrown -> IO A) : IO A :=
  fun log =>
    match m log with
    | (inl e, log') => handler e log'
    | (inr a, log') => (inr a, log')
    end.

Notation "'let!' x ':=' m 'in' k" := (io_bind m (fun x => k))
  (at level 10, x name, m at level 100, k at level 200, only parsing).

Definition of_sum (r : string + json) : IO json :=
  match r with
  | inl message => io_throw (Error message)
  | inr v => io_ret v
  end.

(** [`${x}`] for an environment variable that may be unset. *)
Definition template_env (v : option string) : string :=
  match v with
  | Some s => s
  | None => "undefined"
  end.

Section Forwarder.

(** [process.env.OPENAI_API_KEY] and the remote endpoint. *)
Variable OPENAI_API_KEY : option string.
Variable remote : Request -> FetchOutcome.

(** The request [fetch(target, { method, headers, body })] sends. *)
Definition post_request (target : string) (payload : json) : Request :=
  {| url := target;
     method := "POST";
     headers :=
       [("Content-Type", "application/json");
        ("Authorization", "Bearer " +:+ template_env OPENAI_API_KEY)];
     body := payload |}.

Definition fetch (target : string) (payload : json) : IO Response :=
  fun log =>
    match remote (post_request target payload) with
    | Rejected reason => (inl reason, log ++ [post_request target payload])
    | Resolved response => (inr response, log ++ [post_request target payload])
    end.

(** The part both perform functions share after [fetch] resolves. *)
Definition check_response (response : Response) : IO json :=
  if negb (ok response) then
    let errorText := body_text response in
    io_throw (Error ("OpenAI API Error: " +:+ pretty (status response)
                       +:+ " - " +:+ errorText))
  else of_sum (body_json response).

(** [catch (error)] of both perform functions, with its prefix. *)
Definition rethrow (prefix : string) (error : Thrown) : IO json :=
  match error with
  | Error message => io_throw (Error (prefix +:+ message))
  | NonError _ => io_throw error
  end.

Definition performWebSearchChatCompletion (params : json) : IO json :=
  io_try
    (let! response :=
       fetch "https://api.openai.com/v1/chat/completions"
         (JSON_stringify
            [("model", prop "model" params);
             ("messages", prop "messages" params);
             ("web_search_options",
               js_or (prop "web_search_options" params) (Some (JObj [])))]) in
     check_response response)
    (rethrow "Web search chat completion error: ").

End Forwarder.

(** ** Schemas shared by both revisions *)

Definition describe (t : ZodType) (text : string) : ZodType := z_describe t text.
Definition optional (t : ZodType) : ZodType := z_optional t.

Definition ApproximateLocationSchema : ZodType :=
  z_object
    [("type", z_literal "approximate");
     ("approximate",
       z_object
         [("country",
            describe (optional (z_string_length 2))
              "Two-letter ISO country code (e.g., 'US')");
          ("city", describe (optional z_string) "City name (e.g., 'San Francisco')");
          ("region",
            describe (optional z_string) "Region or state (e.g., 'California')");
          ("timezone",
            describe (optional z_string)
              "IANA timezone (e.g., 'America/Los_Angeles')")])].

(** The [messages] entry of both chat-completion schemas. *)
Definition ChatMessagesSchema : ZodType :=
  describe
    (z_array
       (z_object
          [("role", z_enum ["user"; "assistant"; "system"; "developer"]);
           ("content", z_string)]))
    "Conversation messages".

(** The [web_search_options] entry of both chat-completion schemas. *)
Definition WebSearchOptionsSchema : ZodType :=
  describe
    (optional
       (z_object
          [("user_location",
             describe (optional ApproximateLocationSchema)
               "Optional user location to refine search results");
           ("search_context_size",
             describe (optional (z_enum ["low"; "medium"; "high"]))
               "Amount of context retrieved from the web")]))
    "Configuration options for web search".

(** What the tool-call handler hands back or throws.  [InvalidInput] is
    the [Error] built from a [ZodError]; its list of issues is not
    modelled. *)
Inductive ToolFailure : Type :=
| Raised (e : Thrown)
| InvalidInput.

Definition Handler : Type :=
  list Request -> (ToolFailure + json) * list Request.

(** [{ content: [{ type: "text", text: JSON.stringify(result, null, 2) }] }];
    the rendered text is kept as the value it renders. *)
Definition tool_result (result : json) : json :=
  JObj [("content", JArr [JObj [("type", JStr "text"); ("text", result)]])].

Definition run_tool (m : IO json) : Handler :=
  fun log =>
    match m log with
    | (inl e, log') => (inl (Raised e), log')
    | (inr result, log') => (inr (tool_result result), log')
    end.

(** [Schema.parse(request.params.arguments)] followed by a perform call. *)
Definition validate_then (schema : ZodType) (arguments : json)
    (perform : json -> IO json) : Handler :=
  fun log =>
    match parse schema (Some arguments) with
    | Some (Some args) => run_tool (perform args) log
    | _ => (inl InvalidInput, log)
    end.

(** ** Revision 1.0.0: messages are reshaped *)

Module V1_0_0.

Definition WebSearchChatCompletionSchema : ZodType :=
  z_object
    [("model",
       describe (z_enum ["gpt-4o-search-preview"; "gpt-4o-mini-search-preview"])
         "Model to use for web search");
     ("messages", ChatMessagesSchema);
     ("web_search_options", WebSearchOptionsSchema);
     ("temperature",
       describe (optional z_number)
         "Controls randomness in the response (between 0 and 2)");
     ("max_completion_tokens",
       describe (optional z_number) "Maximum number of tokens for completion");
     ("top_p",
       describe (optional z_number) "Controls diversity via nucleus sampling");
     ("presence_penalty",
       describe (optional z_number)
         "Penalty for tokens based on presence in text (-2.0 to 2.0)");
     ("frequency_penalty",
       describe (optional z_number)
         "Penalty for tokens based on frequency in text (-2.0 to 2.0)");
     ("seed", describe (optional z_number) "Seed for deterministic sampling");
     ("logprobs",
       describe (optional z_boolean)
         "Whether to return log probabilities of output tokens");
     ("top_logprobs",
       describe (optional z_number)
         "Number of most likely tokens to return (0-20)");
     ("response_format",
       describe
         (optional
            (z_object
               [("type",
                  describe (z_enum ["json_object"; "text"; "json_schema"])
                    "Format of the response");
                ("json_schema",
                  describe (optional z_any)
                    "JSON schema for structured outputs")]))
         "Format of model's response");
     ("stop",
       describe (optional (z_union [z_string; z_array z_string]))
         "Sequences to stop generation");
     ("stream", describe (optional z_boolean) "Whether to stream the response");
     ("user",
       describe (optional z_string)
         "A unique identifier representing your end-user");
     ("service_tier",
       describe (optional (z_enum ["auto"; "default"]))
         "Latency tier to use for processing");
     ("reasoning_effort",
       describe (optional (z_enum ["low"; "medium"; "high"]))
         "Effort on reasoning for reasoning models");
     ("store",
       describe (optional z_boolean)
         "Whether to store the output for model distillation");
     ("parallel_tool_calls",
       describe (optional z_boolean)
         "Whether to enable parallel function calling during tool use")].

Definition WebSearchResponsesSchema : ZodType :=
  z_object
    [("model", describe z_string "Model to use for response generation");
     ("tools",
       describe
         (z_array
            (z_object
               [("type", z_literal "web_search_preview");
                ("web_search_preview",
                  optional
                    (z_object
                       [("user_location",
                          describe (optional ApproximateLocationSchema)
                            "Optional user location to refine search results");
                        ("search_context_size",
                          describe (optional (z_enum ["low"; "medium"; "high"]))
                            "Amount of context retrieved from the web")]))]))
         "Tools the model can use");
     ("messages",
       describe
         (z_array
            (z_object
               [("role", z_enum ["user"; "assistant"; "system"]);
                ("content", z_string)]))
         "Conversation messages (will be converted to input/instructions format)");
     ("temperature",
       describe (optional z_number) "Controls randomness in the response");
     ("max_tokens",
       describe (optional z_number) "Maximum number of tokens to generate");
     ("top_p",
       describe (optional z_number) "Controls diversity via nucleus sampling");
     ("presence_penalty",
       describe (optional z_number)
         "Penalty for new tokens based on presence in text");
     ("frequency_penalty",
       describe (optional z_number)
         "Penalty for new tokens based on frequency in text");
     ("response_format",
       describe
         (optional
            (z_object
               [("type",
                  describe (optional (z_enum ["text"; "json_object"]))
                    "Format of the response")]))
         "Format of model's response");
     ("truncation",
       describe (optional (z_enum ["auto"; "disabled"]))
         "Truncation strategy for long inputs");
     ("stream", describe (optional z_boolean) "Whether to stream the response");
     ("user",
       describe (optional z_string)
         "A unique identifier representing your end-user");
     ("instructions",
       describe (optional z_string) "System-level instructions for the model");
     ("store",
       describe (optional z_boolean)
         "Whether to store the response for later retrieval");
     ("parallel_tool_calls",
       describe (optional z_boolean) "Whether to allow parallel tool calls");
     ("previous_response_id",
       describe (optional z_string)
         "ID of the previous response for multi-turn conversations")].

(** *** The message reshaper *)

Record Message := { role : string; content : string }.

(** Validated data read at its static type: a string, a message, the
    message array. *)
Definition as_string (v : option json) : string :=
  match v with
  | Some (JStr s) => s
  | _ => ""
  end.

Definition as_message (j : json) : Message :=
  {| role := as_string (prop "role" j);
     content := as_string (prop "content" j) |}.

Definition as_messages (v : option json) : list Message :=
  match v with
  | Some (JArr items) => map as_message items
  | _ => []
  end.

(** Body of the [forEach] callback, on the pair of locals
    [(instructions, userAndAssistantMessages)]. *)
Definition process_message (st : option string * list Message)
    (message : Message) : option string * list Message :=
  let '(instructions, userAndAssistantMessages) := st in
  if String.eqb (role message) "system" then
    (Some (content message), userAndAssistantMessages)
  else
    (instructions,
     userAndAssistantMessages
       ++ [{| role := role message; content := content message |}]).

Definition process_messages (messages : list Message)
  : option string * list Message :=
  foldl process_message (None, []) messages.

(** The backward [for] loop, on the pair of locals
    [(input, previousMessages)]; [n] is [i + 1], so the loop stops at
    [n = 0].  The index is always in range. *)
Fixpoint find_last_user (userAndAssistantMessages : list Message) (n : nat)
    (st : string * list Message) : string * list Message :=
  match n with
  | O => st
  | S i =>
      match userAndAssistantMessages !! i with
      | Some m =>
          if String.eqb (role m) "user" then
            (content m, take i userAndAssistantMessages)
          else find_last_user userAndAssistantMessages i st
      | None => st
      end
  end.

(** [!input] for a string. *)
Definition is_empty (s : string) : bool := String.eqb s "".

(** The [if (!input && userAndAssistantMessages.length > 0)] block. *)
Definition use_last_message (userAndAssistantMessages : list Message)
    (st : string * list Message) : string * list Message :=
  let '(input, previousMessages) := st in
  if is_empty input && Nat.ltb 0 (length userAndAssistantMessages) then
    (match userAndAssistantMessages !! (length userAndAssistantMessages - 1) with
     | Some m => content m
     | None => input
     end,
     take (length userAndAssistantMessages - 1) userAndAssistantMessages)
  else (input, previousMessages).

Record Reshaped := {
  instructions : option string;
  input : string;
  previousMessages : list Message
}.

Definition reshape (messages : list Message) : Reshaped :=
  let '(instructions, userAndAssistantMessages) := process_messages messages in
  let '(input, previousMessages) :=
    use_last_message userAndAssistantMessages
      (find_last_user userAndAssistantMessages
         (length userAndAssistantMessages) ("", [])) in
  {| instructions := instructions;
     input := input;
     previousMessages := previousMessages |}.

(** [if (params.k !== undefined) requestBody.k' = params.k] *)
Definition copy_defined (k k' : string) (params : json) (o : js_object)
  : js_object :=
  match prop k params with
  | Some v => assign k' (Some v) o
  | None => o
  end.

Definition requestBody (params : json) (r : Reshaped) : js_object :=
  let o :=
    [("model", prop "model" params);
     ("tools", prop "tools" params);
     ("input", Some (JStr (input r)))] in
  let o :=
    match instructions r with
    | Some s => assign "instructions" (Some (JStr s)) o
    | None => o
    end in
  let o :=
    if Nat.ltb 0 (length (previousMessages r)) then
      assign "previous_response_id" (prop "previous_response_id" params) o
    else o in
  let o := copy_defined "temperature" "temperature" params o in
  let o := copy_defined "max_tokens" "max_output_tokens" params o in
  let o := copy_defined "top_p" "top_p" params o in
  let o := copy_defined "presence_penalty" "presence_penalty" params o in
  let o := copy_defined "frequency_penalty" "frequency_penalty" params o in
  let o :=
    match prop "response_format" params with
    | Some format => assign "text" (Some (JObj [("format", format)])) o
    | None => o
    end in
  let o := copy_defined "truncation" "truncation" params o in
  let o := copy_defined "stream" "stream" params o in
  let o := copy_defined "user" "user" params o in
  let o := copy_defined "parallel_tool_calls" "parallel_tool_calls" params o in
  copy_defined "store" "store" params o.

Section Server.

Variable OPENAI_API_KEY : option string.
Variable remote : Request -> FetchOutcome.

Definition performWebSearchResponses (params : json) : IO json :=
  io_try
    (let! response :=
       fetch OPENAI_API_KEY remote "https://api.openai.com/v1/responses"
         (JSON_stringify
            (requestBody params
               (reshape (as_messages (prop "messages" params))))) in
     check_response response)
    (rethrow "Web search responses error: ").

(** The [CallToolRequestSchema] handler. *)
Definition callTool (name : string) (arguments : option json) : Handler :=
  match arguments with
  | None => fun log => (inl (Raised (Error "Arguments are required")), log)
  | Some args =>
      if String.eqb name "web_search_chat_completion" then
        validate_then WebSearchChatCompletionSchema args
          (performWebSearchChatCompletion OPENAI_API_KEY remote)
      else if String.eqb name "web_search_responses" then
        validate_then WebSearchResponsesSchema args performWebSearchResponses
      else
        fun log => (inl (Raised (Error ("Unknown tool: " +:+ name))), log)
  end.

End Server.

(** The [ListToolsRequestSchema] handler; [zodToJsonSchema] is the
    library's rendering of a schema. *)
Definition listTools (zodToJsonSchema : ZodType -> json) : json :=
  JObj
    [("tools",
       JArr
         [JObj
            [("name", JStr "web_search_chat_completion");
             ("description",
               JStr "Perform a web search using OpenAI's Chat Completions API with search-enabled models");
             ("inputSchema", zodToJsonSchema WebSearchChatCompletionSchema)];
          JObj
            [("name", JStr "web_search_responses");
             ("description",
               JStr "Perform a web search using OpenAI's Responses API with web_search_preview tool");
             ("inputSchema", zodToJsonSchema WebSearchResponsesSchema)]])].

End V1_0_0.

(** ** Revision 1.1.2: parameters are forwarded as validated *)

Module V1_1_2.

Definition WebSearchChatCompletionSchema : ZodType :=
  z_object
    [("model",
       describe (z_enum ["gpt-4o-search-preview"; "gpt-4o-mini-search-preview"])
         "Model to use for web search");
     ("messages", ChatMessagesSchema);
     ("web_search_options", WebSearchOptionsSchema)].

Definition WebSearchResponsesSchema : ZodType :=
  z_object
    [("model", describe (z_enum ["gpt-4o"]) "Model to use for response generation");
     ("tools",
       describe
         (z_array
            (z_object
               [("type",
                  z_enum ["web_search_preview"; "web_search_preview_2025_03_11"]);
                ("user_location",
                  describe (optional ApproximateLocationSchema)
                    "Optional user location to refine search results");
                ("search_context_size",
                  describe (optional (z_enum ["low"; "medium"; "high"]))
                    "Amount of context retrieved from the web")]))
         "Tools the model can use");
     ("input",
       describe
         (z_union
            [z_string;
             z_array
               (z_object
                  [("role", z_enum ["user"; "assistant"; "system"]);
                   ("content", z_string)])])
         "Conversation messages (will be converted to input/instructions format)")].

Section Server.

Variable OPENAI_API_KEY : option string.
Variable remote : Request -> FetchOutcome.

(** [JSON.stringify(params)] of a validated value is that value. *)
Definition performWebSearchResponses (params : json) : IO json :=
  io_try
    (let! response :=
       fetch OPENAI_API_KEY remote "https://api.openai.com/v1/responses"
         params in
     check_response response)
    (rethrow "Web search responses error: ").

Definition callTool (name : string) (arguments : option json) : Handler :=
  match arguments with
  | None => fun log => (inl (Raised (Error "Arguments are required")), log)
  | Some args =>
      if String.eqb name "web_search_chat_completion" then
        validate_then WebSearchChatCompletionSchema args
          (performWebSearchChatCompletion OPENAI_API_KEY remote)
      else if String.eqb name "web_search_responses" then
        validate_then WebSearchResponsesSchema args performWebSearchResponses
      else
        fun log => (inl (Raised (Error ("Unknown tool: " +:+ name))), log)
  end.

End Server.

(** The [ListToolsRequestSchema] handler; [zodToJsonSchema] is the
    library's rendering of a schema. *)
Definition listTools (zodToJsonSchema : ZodType -> json) : json :=
  JObj
    [("tools",
       JArr
         [JObj
            [("name", JStr "web_search_chat_completion");
             ("description",
               JStr "Perform a web search using OpenAI's Chat Completions API with search-enabled models");
             ("inputSchema", zodToJsonSchema WebSearchChatCompletionSchema)];
          JObj
            [("name", JStr "web_search_responses");
             ("description",
               JStr "Perform a web search using OpenAI's Responses API with web_search_preview tool");
             ("inputSchema", zodToJsonSchema WebSearchResponsesSchema)]])].

End V1_1_2.

(** ** The static type of a validated chat-completion request

    [z.infer<typeof WebSearchChatCompletionSchema>] of revision 1.1.2, and
    its JSON rendering with the keys in the order of the schema. *)

Inductive SearchModel : Type :=
| gpt_4o_search_preview
| gpt_4o_mini_search_preview.

Inductive Role : Type := user | assistant | system | developer.

Inductive ContextSize : Type := low | medium | high.

Record Approximate := {
  country : option string;
  city : option string;
  region : option string;
  timezone : option string
}.

Record SearchOptions := {
  user_location : option Approximate;
  search_context_size : option ContextSize
}.

Record ChatMessage := { msg_role : Role; msg_content : string }.

Record ChatCompletionRequest := {
  model : SearchModel;
  messages : list ChatMessage;
  web_search_options : option SearchOptions
}.

Definition model_name (m : SearchModel) : string :=
  match m with
  | gpt_4o_search_preview => "gpt-4o-search-preview"
  | gpt_4o_mini_search_preview => "gpt-4o-mini-search-preview"
  end.

Definition role_name (r : Role) : string :=
  match r with
  | user => "user"
  | assistant => "assistant"
  | system => "system"
  | developer => "developer"
  end.

Definition size_name (c : ContextSize) : string :=
  match c with
  | low => "low"
  | medium => "medium"
  | high => "high"
  end.

(** A key that is present only when its value is. *)
Definition opt_field (k : string) (v : option json) : list (string * json) :=
  match v with
  | Some x => [(k, x)]
  | None => []
  end.

Definition approximate_json (a : Approximate) : json :=
  JObj (opt_field "country" (JStr <$> country a)
        ++ opt_field "city" (JStr <$> city a)
        ++ opt_field "region" (JStr <$> region a)
        ++ opt_field "timezone" (JStr <$> timezone a)).

Definition location_json (a : Approximate) : json :=
  JObj [("type", JStr "approximate"); ("approximate", approximate_json a)].

Definition options_json (o : SearchOptions) : json :=
  JObj (opt_field "user_location" (location_json <$> user_location o)
        ++ opt_field "search_context_size"
             (JStr <$> (size_name <$> search_context_size o))).

Definition message_json (m : ChatMessage) : json :=
  JObj [("role", JStr (role_name (msg_role m)));
        ("content", JStr (msg_content m))].

Definition request_json (r : ChatCompletionRequest) : json :=
  JObj ([("model", JStr (model_name (model r)));
         ("messages", JArr (map message_json (messages r)))]
        ++ opt_field "web_search_options" (options_json <$> web_search_options r)).

(** The one constraint the type does not carry: [country] has length 2. *)
Definition valid_options (o : SearchOptions) : Prop :=
  forall a c, user_location o = Some a -> country a = Some c ->
    String.length c = 2.

Definition valid_request (r : ChatCompletionRequest) : Prop :=
  forall o, web_search_options r = Some o -> valid_options o.

(** ** Vocabulary of the specification

    The two partitions of section 4.2, written as filters so that the
    fold of the source can be compared with them. *)

Definition systemMessages (ms : list V1_0_0.Message) : list V1_0_0.Message :=
  filter (fun m => V1_0_0.role m = "system") ms.

Definition nonSystemMessages (ms : list V1_0_0.Message) : list V1_0_0.Message :=
  filter (fun m => V1_0_0.role m <> "system") ms.

(** [m] is the last user-role message of [ms], between [pre] and [post]. *)
Definition last_user (ms pre : list V1_0_0.Message) (m : V1_0_0.Message)
    (post : list V1_0_0.Message) : Prop :=
  ms = pre ++ m :: post /\ V1_0_0.role m = "user"
  /\ Forall (fun x => V1_0_0.role x <> "user") post.

(** [s] is the last system-role message of [ms]. *)
Definition last_system (ms pre : list V1_0_0.Message) (s : V1_0_0.Message)
    (post : list V1_0_0.Message) : Prop :=
  ms = pre ++ s :: post /\ V1_0_0.role s = "system"
  /\ Forall (fun x => V1_0_0.role x <> "system") post.

(** A forwarded body [b] is in the reshaped form of the sequence [ms]:
    its [input] and [instructions] are those of the reshaper. *)
Definition reshaped_form (ms : list V1_0_0.Message) (b : json) : Prop :=
  prop "input" b = Some (JStr (V1_0_0.input (V1_0_0.reshape ms)))
  /\ prop "instructions" b = JStr <$> V1_0_0.instructions (V1_0_0.reshape ms).

(** Property read on an object under construction, as [JSON.stringify]
    will see it. *)
Definition get (k : string) (o : js_object) : option json :=
  mjoin (assoc k o).

(** The body text of the rate-limit example. *)
Definition dquote : string := String (Ascii.ascii_of_nat 34) "".

Definition rate_limited : string :=
  "{" +:+ dquote +:+ "error" +:+ dquote +:+ ":"
      +:+ dquote +:+ "rate_limited" +:+ dquote +:+ "}".

(** A remote end that answers every request with an empty JSON object. *)
Definition ok_remote (_ : Request) : FetchOutcome :=
  Resolved {| status := 200; body_text := "{}"; body_json := inr (JObj []) |}.

(** A remote end that answers every request with 429 and the rate-limit
    body. *)
Definition rate_limiting_remote (_ : Request) : FetchOutcome :=
  Resolved
    {| status := 429;
       body_text := rate_limited;
       body_json := inr (JObj [("error", JStr "rate_limited")]) |}.

(** A message as it arrives on the wire. *)
Definition wire_message (role content : string) : json :=
  JObj [("role", JStr role); ("content", JStr content)].

(** Decimal digits, the alphabet of a rendered status code. *)
Definition is_digit (c : Ascii.ascii) : bool :=
  Nat.leb 48 (Ascii.nat_of_ascii c) && Nat.leb (Ascii.nat_of_ascii c) 57.

Fixpoint digits (s : string) : bool :=
  match s with
  | EmptyString => true
  | String c rest => is_digit c && digits rest
  end.

(** The message of the [Error] thrown for a response that is not ok. *)
Definition api_error_message (response : Response) : string :=
  "OpenAI API Error: " +:+ pretty (status response)
    +:+ " - " +:+ body_text response.

(** ** Error formatting

    An [Error] object handed to [formatOpenAIError]: a plain one, or an
    [OpenAIAPIError] with its optional [status]. *)

Inductive ErrorObject : Type :=
| PlainError (message : string)
| OpenAIAPIError (message : string) (status : option N).

Definition formatOpenAIError (error : ErrorObject) : string :=
  match error with
  | PlainError message => "API Error: " +:+ message
  | OpenAIAPIError message status =>
      "OpenAI API Error "
        +:+ match status with
            | Some n => if N.eqb n 0 then "" else "(" +:+ pretty n +:+ ")"
            | None => ""
            end
        +:+ ": " +:+ message
  end.

(** The status [formatOpenAIError] shows: none when it is unset or 0. *)
Definition shown_status (status : option N) : option N :=
  match status with
  | Some n => if N.eqb n 0 then None else Some n
  | None => None
  end.

(** The names a tool listing advertises. *)
Definition tool_names (listing : json) : list string :=
  match prop "tools" listing with
  | Some (JArr tools) =>
      omap
        (fun t => match prop "name" t with Some (JStr n) => Some n | _ => None end)
        tools
  | _ => []
  end.

(** The keys revision 1.0.0 can put in a [web_search_responses] body. *)
Definition responses_body_keys : list string :=
  ["model"; "tools"; "input"; "instructions"; "previous_response_id";
   "temperature"; "max_output_tokens"; "top_p"; "presence_penalty";
   "frequency_penalty"; "text"; "truncation"; "stream"; "user";
   "parallel_tool_calls"; "store"].

(** The optional parameters revision 1.0.0 forwards under their own name. *)
Definition passthrough_keys : list string :=
  ["temperature"; "top_p"; "presence_penalty"; "frequency_penalty";
   "truncation"; "stream"; "user"; "parallel_tool_calls"; "store"].

(** A remote end that cannot be reached. *)
Definition failing_remote (_ : Request) : FetchOutcome :=
  Rejected (Error "fetch failed").

(** What a perform function makes of the outcome of its one [fetch]:
    the [catch] prefix is put before the message of every [Error]. *)
Definition settle (label : string) (outcome : FetchOutcome) : Thrown + json :=
  match outcome with
  | Rejected (Error message) => inl (Error (label +:+ message))
  | Rejected (NonError value) => inl (NonError value)
  | Resolved response =>
      if ok response then
        match body_json response with
        | inl message => inl (Error (label +:+ message))
        | inr result => inr result
        end
      else inl (Error (label +:+ api_error_message response))
  end.

(** * Properties *)

(** ** The schema interpreter *)

Lemma parse_object_unfold shape fields :
  parse (z_object shape) (Some (JObj fields)) =
  match parse_shape fields shape with
  | Some out => Some (Some (JObj out))
  | None => None
  end.
Proof.
  cbn [parse].
  assert (Heq : forall sh,
    (fix parse_shape (sh : list (string * ZodType))
       : option (list (string * json)) :=
       match sh with
       | [] => Some []
       | (k, t') :: rest =>
           match parse t' (assoc k fields), parse_shape rest with
           | Some (Some v), Some out => Some ((k, v) :: out)
           | Some None, Some out => Some out
           | _, _ => None
           end
       end) sh = parse_shape fields sh).
  { induction sh as [|[k t'] rest IH]; [reflexivity|].
    cbn [parse_shape]. rewrite <- IH. reflexivity. }
  now rewrite Heq.
Qed.

Lemma parse_union_unfold options data :
  parse (z_union options) data = first_valid data options.
Proof.
  cbn [parse]. induction options as [|t' rest IH]; [reflexivity|].
  cbn [first_valid]. now rewrite <- IH.
Qed.

(** ** The message reshaper of revision 1.0.0 *)

Section Reshaper.

Import V1_0_0.

Implicit Types (m : Message) (ms ns pre post : list Message).

Lemma filter_none (P : Message -> Prop) `{!forall x, Decision (P x)} ms :
  Forall (fun x => ~ P x) ms -> filter P ms = [].
Proof.
  induction 1 as [|x l Hx _ IH]; [reflexivity|].
  now rewrite filter_cons_False.
Qed.

Lemma message_eta m : {| role := role m; content := content m |} = m.
Proof. now destruct m. Qed.

Lemma role_user_non_system m : role m = "user" -> role m <> "system".
Proof. intros ->. discriminate. Qed.

(** The [forEach] loop computes the two partitions: the non-system
    messages in order, and the content of the last system message. *)
Lemma foldl_process_message ms (i : option string) acc :
  foldl process_message (i, acc) ms =
  (match list.last (systemMessages ms) with
   | Some s => Some (content s)
   | None => i
   end,
   acc ++ nonSystemMessages ms).
Proof.
  unfold systemMessages, nonSystemMessages.
  revert i acc. induction ms as [|m ms IH]; intros i acc.
  - cbn. now rewrite app_nil_r.
  - cbn [foldl process_message]. rewrite !filter_cons.
    destruct (String.eqb_spec (role m) "system") as [Hs|Hs].
    + rewrite IH. rewrite decide_True by done.
      rewrite (decide_False (P := role m <> "system")) by (intros H; now apply H).
      rewrite last_cons. now destruct (list.last _).
    + rewrite IH, message_eta. rewrite decide_False by done.
      rewrite decide_True by done.
      now rewrite <- app_assoc.
Qed.

Lemma process_messages_spec ms :
  process_messages ms =
  (content <$> list.last (systemMessages ms), nonSystemMessages ms).
Proof.
  unfold process_messages. rewrite foldl_process_message.
  now destruct (list.last _).
Qed.

(** The backward scan. *)
Lemma find_last_user_none ns n st :
  Forall (fun x => role x <> "user") ns -> find_last_user ns n st = st.
Proof.
  intros Hns. induction n as [|i IH]; [reflexivity|].
  cbn [find_last_user]. destruct (ns !! i) as [x|] eqn:Hx; [|reflexivity].
  rewrite Forall_lookup in Hns. specialize (Hns _ _ Hx).
  now destruct (String.eqb_spec (role x) "user").
Qed.

Lemma find_last_user_prefix ns ys n st :
  n <= length ns ->
  find_last_user (ns ++ ys) n st = find_last_user ns n st.
Proof.
  induction n as [|i IH]; intros Hn; [reflexivity|].
  cbn [find_last_user].
  rewrite lookup_app_l by lia.
  destruct (ns !! i) as [x|]; [|reflexivity].
  destruct (String.eqb (role x) "user").
  - now rewrite take_app_le by lia.
  - apply IH. lia.
Qed.

Lemma find_last_user_found pre m post st :
  role m = "user" ->
  Forall (fun x => role x <> "user") post ->
  find_last_user (pre ++ m :: post) (length (pre ++ m :: post)) st =
  (content m, pre).
Proof.
  intros Hm. induction post as [|x post IH] using rev_ind; intros Hpost.
  - rewrite length_app. cbn [length].
    replace (length pre + 1) with (S (length pre)) by lia.
    cbn [find_last_user]. rewrite list_lookup_middle by done.
    rewrite Hm. cbn. now rewrite take_app_length.
  - apply list.Forall_app in Hpost as [Hpost Hx].
    rewrite Forall_singleton in Hx.
    replace (pre ++ m :: post ++ [x]) with ((pre ++ m :: post) ++ [x])
      by now rewrite <- app_assoc.
    rewrite (length_app _ [x]). cbn [length].
    replace (length (pre ++ m :: post) + 1)
      with (S (length (pre ++ m :: post))) by lia.
    cbn [find_last_user]. rewrite list_lookup_middle by done.
    destruct (String.eqb_spec (role x) "user"); [done|].
    rewrite find_last_user_prefix by done. now apply IH.
Qed.

(** Every list either has no user-role message or has a last one. *)
Lemma last_user_cases ns :
  Forall (fun x => role x <> "user") ns
  \/ exists pre m post, last_user ns pre m post.
Proof.
  induction ns as [|x ns [IH|(pre & m & post & -> & Hm & Hpost)]].
  - left. constructor.
  - destruct (decide (role x = "user")) as [Hx|Hx].
    + right. exists [], x, ns. now split.
    + left. now constructor.
  - right. exists (x :: pre), m, post. now split.
Qed.

(** The fallback block, entered with an empty [input]. *)
Lemma use_last_message_empty init l prev :
  use_last_message (init ++ [l]) ("", prev) = (content l, init).
Proof.
  unfold use_last_message. cbn [is_empty String.eqb andb].
  rewrite length_app. cbn [length].
  replace (length init + 1 - 1) with (length init) by lia.
  replace (Nat.ltb 0 (length init + 1)) with true
    by (symmetry; apply Nat.ltb_lt; lia).
  rewrite list_lookup_middle by done. now rewrite take_app_length.
Qed.

Lemma use_last_message_nonempty ns (i : string) prev :
  i <> "" -> use_last_message ns (i, prev) = (i, prev).
Proof.
  intros Hi. unfold use_last_message, is_empty.
  now destruct (String.eqb_spec i "").
Qed.

Lemma reshape_unfold ms :
  reshape ms =
  let ns := nonSystemMessages ms in
  let st := use_last_message ns (find_last_user ns (length ns) ("", [])) in
  {| instructions := content <$> list.last (systemMessages ms);
     input := st.1;
     previousMessages := st.2 |}.
Proof.
  unfold reshape. rewrite process_messages_spec. cbn zeta.
  now destruct (use_last_message _ _).
Qed.

(** The partitions of a sequence split at a user-role message. *)
Lemma nonSystemMessages_split pre m post :
  role m = "user" ->
  nonSystemMessages (pre ++ m :: post) =
  nonSystemMessages pre ++ m :: nonSystemMessages post.
Proof.
  intros Hm. unfold nonSystemMessages.
  rewrite list.filter_app, filter_cons.
  now rewrite decide_True by now apply role_user_non_system.
Qed.

Lemma Forall_nonSystemMessages (P : Message -> Prop) ms :
  Forall P ms -> Forall P (nonSystemMessages ms).
Proof.
  rewrite !list.Forall_forall. intros H x Hx.
  apply H. unfold nonSystemMessages in Hx.
  now apply list_elem_of_filter in Hx as [_ Hx].
Qed.

(** Input and context when the last user message has content. *)
Lemma reshape_last_user ms pre m post :
  last_user ms pre m post -> content m <> "" ->
  input (reshape ms) = content m
  /\ previousMessages (reshape ms) = nonSystemMessages pre.
Proof.
  intros (-> & Hm & Hpost) Hc. rewrite reshape_unfold. cbn zeta.
  rewrite nonSystemMessages_split by done.
  rewrite find_last_user_found
    by (try done; now apply Forall_nonSystemMessages).
  now rewrite use_last_message_nonempty.
Qed.

(** Input and context when the last user message is empty. *)
Lemma reshape_last_user_empty ms pre m post init l :
  last_user ms pre m post -> content m = "" ->
  nonSystemMessages ms = init ++ [l] ->
  input (reshape ms) = content l /\ previousMessages (reshape ms) = init.
Proof.
  intros (-> & Hm & Hpost) Hc Hns. rewrite reshape_unfold. cbn zeta.
  rewrite nonSystemMessages_split in * by done.
  rewrite find_last_user_found
    by (try done; now apply Forall_nonSystemMessages).
  rewrite Hc, Hns. now rewrite use_last_message_empty.
Qed.

(** Input and context when there is no user message. *)
Lemma reshape_no_user ms init l :
  Forall (fun x => role x <> "user") ms ->
  nonSystemMessages ms = init ++ [l] ->
  input (reshape ms) = content l /\ previousMessages (reshape ms) = init.
Proof.
  intros Hms Hns. rewrite reshape_unfold. cbn zeta.
  rewrite find_last_user_none by now apply Forall_nonSystemMessages.
  rewrite Hns. now rewrite use_last_message_empty.
Qed.

Lemma reshape_no_messages ms :
  nonSystemMessages ms = [] ->
  input (reshape ms) = "" /\ previousMessages (reshape ms) = [].
Proof.
  intros Hns. rewrite reshape_unfold. cbn zeta. now rewrite Hns.
Qed.

Lemma reshape_instructions ms :
  instructions (reshape ms) = content <$> list.last (systemMessages ms).
Proof. now rewrite reshape_unfold. Qed.

Lemma systemMessages_split pre s post :
  last_system (pre ++ s :: post) pre s post ->
  list.last (systemMessages (pre ++ s :: post)) = Some s.
Proof.
  intros (_ & Hs & Hpost). unfold systemMessages.
  rewrite list.filter_app, filter_cons, decide_True by done.
  replace (filter (fun m => role m = "system") post) with (@nil Message).
  - now rewrite last_snoc.
  - symmetry. now apply filter_none.
Qed.

End Reshaper.

(** ** Objects under construction and their JSON text *)

Section Objects.

Implicit Types (o : js_object) (k : string) (v : option json).

Lemma get_assign k k' v o :
  get k (assign k' v o) = if String.eqb k k' then v else get k o.
Proof.
  unfold get. induction o as [|[k0 v0] rest IH]; cbn [assign assoc].
  - now destruct (String.eqb k k').
  - destruct (String.eqb_spec k' k0) as [->|Hne]; cbn [assoc].
    + now destruct (String.eqb k k0).
    + destruct (String.eqb_spec k k0) as [->|Hne'].
      * destruct (String.eqb_spec k0 k'); [congruence|reflexivity].
      * exact IH.
Qed.

Lemma elem_of_assign_keys x k v o :
  x ∈ (assign k v o).*1 <-> x = k \/ x ∈ o.*1.
Proof.
  induction o as [|[k0 v0] rest IH]; cbn [assign].
  - cbn. rewrite list_elem_of_singleton, elem_of_nil. tauto.
  - destruct (String.eqb_spec k k0) as [->|Hne]; cbn.
    + rewrite !elem_of_cons. tauto.
    + rewrite !elem_of_cons, IH. tauto.
Qed.

Lemma assign_NoDup k v o : NoDup o.*1 -> NoDup (assign k v o).*1.
Proof.
  induction o as [|[k0 v0] rest IH]; cbn [assign]; intros Hnd.
  - cbn. apply NoDup_singleton.
  - cbn in Hnd. apply list.NoDup_cons in Hnd as [Hk0 Hrest].
    destruct (String.eqb_spec k k0) as [->|Hne]; cbn.
    + now apply list.NoDup_cons.
    + apply list.NoDup_cons. split; [|now apply IH].
      rewrite elem_of_assign_keys. intros [->|?]; congruence.
Qed.

Lemma assoc_defined_fields_absent k o :
  k ∉ o.*1 -> assoc k (defined_fields o) = None.
Proof.
  induction o as [|[k0 [x|]] rest IH]; cbn; intros Hk; [reflexivity| |].
  - apply not_elem_of_cons in Hk as [Hne Hk].
    destruct (String.eqb_spec k k0); [done|now apply IH].
  - apply not_elem_of_cons in Hk as [_ Hk]. now apply IH.
Qed.

(** Reading a key of the serialised object is reading it before
    serialisation. *)
Lemma prop_JSON_stringify k o :
  NoDup o.*1 -> prop k (JSON_stringify o) = get k o.
Proof.
  unfold get. cbn [prop JSON_stringify].
  induction o as [|[k0 [x|]] rest IH]; cbn; intros Hnd; [reflexivity| |].
  - apply list.NoDup_cons in Hnd as [_ Hnd].
    destruct (String.eqb k k0); [reflexivity|now apply IH].
  - apply list.NoDup_cons in Hnd as [Hk0 Hnd].
    destruct (String.eqb_spec k k0) as [->|_]; [|now apply IH].
    now apply assoc_defined_fields_absent.
Qed.

End Objects.

(** ** The request body of revision 1.0.0 *)

Section RequestBody.

Import V1_0_0.

Lemma get_copy_defined k src k' params o :
  String.eqb k k' = false -> get k (copy_defined src k' params o) = get k o.
Proof.
  intros Hk. unfold copy_defined. destruct (prop src params); [|reflexivity].
  now rewrite get_assign, Hk.
Qed.

Lemma copy_defined_NoDup src k' params o :
  NoDup o.*1 -> NoDup (copy_defined src k' params o).*1.
Proof.
  intros Hnd. unfold copy_defined.
  destruct (prop src params); [now apply assign_NoDup|exact Hnd].
Qed.

Lemma requestBody_NoDup params r : NoDup (requestBody params r).*1.
Proof.
  unfold requestBody. cbn zeta.
  repeat (apply copy_defined_NoDup
          || match goal with
             | |- NoDup (match ?c with _ => _ end).*1 => destruct c
             | |- NoDup (if ?c then _ else _).*1 => destruct c
             end
          || apply assign_NoDup).
  all: cbn; apply (bool_decide_unpack _); reflexivity.
Qed.

Ltac skip_copies :=
  repeat (rewrite get_copy_defined by reflexivity);
  match goal with
  | |- context [prop "response_format" ?p] =>
      destruct (prop "response_format" p)
  end;
  rewrite ?get_assign;
  repeat (rewrite get_copy_defined by reflexivity).

Lemma requestBody_input params r :
  get "input" (requestBody params r) = Some (JStr (input r)).
Proof.
  unfold requestBody. cbn zeta. skip_copies.
  all: destruct (Nat.ltb 0 (length (previousMessages r)));
    destruct (instructions r); now rewrite ?get_assign.
Qed.

Lemma requestBody_instructions params r :
  get "instructions" (requestBody params r) = JStr <$> instructions r.
Proof.
  unfold requestBody. cbn zeta. skip_copies.
  all: destruct (Nat.ltb 0 (length (previousMessages r)));
    destruct (instructions r); now rewrite ?get_assign.
Qed.

Lemma requestBody_previous_response_id params r :
  get "previous_response_id" (requestBody params r) =
  if Nat.ltb 0 (length (previousMessages r))
  then prop "previous_response_id" params
  else None.
Proof.
  unfold requestBody. cbn zeta. skip_copies.
  all: destruct (Nat.ltb 0 (length (previousMessages r)));
    destruct (instructions r); now rewrite ?get_assign.
Qed.

Lemma requestBody_model_tools params r :
  get "model" (requestBody params r) = prop "model" params
  /\ get "tools" (requestBody params r) = prop "tools" params.
Proof.
  unfold requestBody. cbn zeta. split; skip_copies.
  all: destruct (Nat.ltb 0 (length (previousMessages r)));
    destruct (instructions r); now rewrite ?get_assign.
Qed.

End RequestBody.

(** ** The request forwarder *)

Section ForwarderFacts.

Variable OPENAI_API_KEY : option string.
Variable remote : Request -> FetchOutcome.

Lemma ok_false (response : Response) :
  (status response < 200 \/ 299 < status response)%N -> ok response = false.
Proof.
  intros H. unfold ok. apply andb_false_iff.
  destruct H; [left; apply N.leb_gt|right; apply N.leb_gt]; lia.
Qed.

Lemma check_response_not_ok response log :
  ok response = false ->
  check_response response log = (inl (Error (api_error_message response)), log).
Proof. intros H. unfold check_response. now rewrite H. Qed.

(** One call is logged whatever the remote end does. *)
Lemma forward_log target payload prefix log :
  (io_try
     (let! response := fetch OPENAI_API_KEY remote target payload in
      check_response response)
     (rethrow prefix) log).2
  = log ++ [post_request OPENAI_API_KEY target payload].
Proof.
  unfold io_try, io_bind, fetch.
  destruct (remote _) as [[message|value]|response]; cbn; [done..|].
  unfold check_response.
  destruct (negb (ok response)); cbn; [done|].
  now destruct (body_json response).
Qed.

Lemma forward_not_ok target payload prefix response log :
  remote (post_request OPENAI_API_KEY target payload) = Resolved response ->
  ok response = false ->
  io_try
    (let! response := fetch OPENAI_API_KEY remote target payload in
     check_response response)
    (rethrow prefix) log
  = (inl (Error (prefix +:+ api_error_message response)),
     log ++ [post_request OPENAI_API_KEY target payload]).
Proof.
  intros Hremote Hok. unfold io_try, io_bind, fetch. rewrite Hremote.
  now rewrite check_response_not_ok.
Qed.

End ForwarderFacts.

(** The status code and the body text can be read back from the message. *)

Lemma pretty_N_char_digit (x : N) : is_digit (pretty_N_char x) = true.
Proof. unfold pretty_N_char. now repeat case_match. Qed.

Lemma pretty_N_go_digits (x : N) (s : string) :
  digits s = true -> digits (pretty_N_go x s) = true.
Proof.
  revert s. induction (N.lt_wf_0 x) as [x _ IH]; intros s Hs.
  destruct (decide (x = 0)%N) as [->|Hx].
  - now rewrite pretty_N_go_0.
  - rewrite pretty_N_go_step by lia. apply IH.
    + apply N.div_lt; lia.
    + cbn [digits]. now rewrite pretty_N_char_digit.
Qed.

Lemma pretty_N_digits (x : N) : digits (pretty x) = true.
Proof.
  unfold pretty, pretty_N. case_decide; [reflexivity|].
  now apply pretty_N_go_digits.
Qed.

Lemma digits_then_space_inj (d1 d2 r1 r2 : string) :
  digits d1 = true -> digits d2 = true ->
  d1 +:+ " " +:+ r1 = d2 +:+ " " +:+ r2 -> d1 = d2 /\ r1 = r2.
Proof.
  revert d2. induction d1 as [|c d1 IH]; intros [|c' d2] H1 H2 Heq; cbn in *.
  - now inversion Heq.
  - inversion Heq; subst. discriminate.
  - inversion Heq; subst. discriminate.
  - apply andb_prop in H1 as [_ H1]. apply andb_prop in H2 as [_ H2].
    inversion Heq; subst. now destruct (IH d2 H1 H2) as [-> ->].
Qed.

Lemma string_app_inv_head (p s1 s2 : string) : p +:+ s1 = p +:+ s2 -> s1 = s2.
Proof. induction p as [|c p IH]; cbn; [done|]. intros [=]. now apply IH. Qed.

Lemma api_error_message_inj (prefix : string) (r1 r2 : Response) :
  prefix +:+ api_error_message r1 = prefix +:+ api_error_message r2 ->
  status r1 = status r2 /\ body_text r1 = body_text r2.
Proof.
  intros H. apply string_app_inv_head in H. unfold api_error_message in H.
  apply string_app_inv_head in H.
  change (" - " +:+ body_text r1) with (" " +:+ "- " +:+ body_text r1) in H.
  change (" - " +:+ body_text r2) with (" " +:+ "- " +:+ body_text r2) in H.
  apply digits_then_space_inj in H as [Hs Ht]; [|apply pretty_N_digits..].
  split; [now apply (inj pretty)|].
  now apply (string_app_inv_head "- ").
Qed.

(** ** Validation of chat-completion requests *)

Section Validation.

Lemma parse_describe t text data : parse (describe t text) data = parse t data.
Proof. reflexivity. Qed.

Lemma parse_optional_defined t x :
  parse (optional t) (Some x) = parse t (Some x).
Proof. reflexivity. Qed.

Lemma parse_array element items :
  parse (z_array element) (Some (JArr items)) =
  match mapM (fun x => element_value <$> parse element (Some x)) items with
  | Some out => Some (Some (JArr out))
  | None => None
  end.
Proof. reflexivity. Qed.

(** A shape is rejected as soon as one of its keys is. *)
Lemma parse_shape_rejects fields shape k t :
  (k, t) ∈ shape -> parse t (assoc k fields) = None ->
  parse_shape fields shape = None.
Proof.
  intros Hin Hk. induction shape as [|[k0 t0] rest IH]; [now inversion Hin|].
  cbn [parse_shape]. apply elem_of_cons in Hin as [[= <- <-]|Hin].
  - now rewrite Hk.
  - rewrite (IH Hin). now destruct (parse t0 _) as [[?|]|].
Qed.

Lemma mapM_rejects {A B : Type} (f : A -> option B) (l : list A) (x : A) :
  x ∈ l -> f x = None -> mapM f l = None.
Proof.
  intros Hin Hx. destruct (mapM f l) as [out|] eqn:Hm; [|reflexivity].
  assert (Hall : Forall (is_Some ∘ f) l) by (apply mapM_is_Some; eauto).
  rewrite list.Forall_forall in Hall. destruct (Hall _ Hin) as [y Hy].
  cbn in Hy. congruence.
Qed.

Lemma parse_message_json m :
  parse
    (z_object
       [("role", z_enum ["user"; "assistant"; "system"; "developer"]);
        ("content", z_string)])
    (Some (message_json m))
  = Some (Some (message_json m)).
Proof. destruct m as [[] c]; reflexivity. Qed.

Lemma parse_messages_json ms :
  parse ChatMessagesSchema (Some (JArr (map message_json ms))) =
  Some (Some (JArr (map message_json ms))).
Proof.
  unfold ChatMessagesSchema. rewrite parse_describe, parse_array.
  assert (Hm : mapM
    (fun x => element_value <$>
       parse
         (z_object
            [("role", z_enum ["user"; "assistant"; "system"; "developer"]);
             ("content", z_string)]) (Some x))
    (map message_json ms) = Some (map message_json ms)).
  { induction ms as [|m ms IH]; [reflexivity|].
    cbn [map mapM]. rewrite parse_message_json, IH. reflexivity. }
  now rewrite Hm.
Qed.

Lemma parse_options_json o :
  valid_options o ->
  parse WebSearchOptionsSchema (Some (options_json o)) =
  Some (Some (options_json o)).
Proof.
  intros Hv. destruct o as [[[co ci re tz]|] sz].
  - assert (Hco : forall c, co = Some c -> Nat.eqb (String.length c) 2 = true).
    { intros c ->. apply Nat.eqb_eq. now apply (Hv _ c eq_refl). }
    clear Hv. destruct co as [c|]; [specialize (Hco c eq_refl)|];
      destruct ci, re, tz, sz as [[]|]; cbn; rewrite ?Hco; reflexivity.
  - destruct sz as [[]|]; reflexivity.
Qed.

Lemma parse_options_missing : parse WebSearchOptionsSchema None = Some None.
Proof. reflexivity. Qed.

Lemma parse_request_json r :
  valid_request r ->
  parse V1_1_2.WebSearchChatCompletionSchema (Some (request_json r)) =
  Some (Some (request_json r)).
Proof.
  intros Hv. destruct r as [mo ms [o|]]; unfold request_json;
    cbn [model messages web_search_options opt_field fmap option_fmap option_map app].
  - unfold V1_1_2.WebSearchChatCompletionSchema.
    rewrite parse_object_unfold. cbn [parse_shape assoc String.eqb Ascii.eqb Bool.eqb].
    rewrite parse_messages_json, parse_options_json by now apply Hv.
    now destruct mo.
  - unfold V1_1_2.WebSearchChatCompletionSchema.
    rewrite parse_object_unfold. cbn [parse_shape assoc String.eqb Ascii.eqb Bool.eqb].
    rewrite parse_messages_json, parse_options_missing.
    now destruct mo.
Qed.

(** The fields the chat-completion body is built from. *)
Lemma prop_request_json r :
  prop "model" (request_json r) = Some (JStr (model_name (model r)))
  /\ prop "messages" (request_json r) =
      Some (JArr (map message_json (messages r)))
  /\ prop "web_search_options" (request_json r) =
      options_json <$> web_search_options r.
Proof. destruct r as [mo ms [o|]]; repeat split. Qed.

Lemma parse_shape_cons fields k t rest :
  parse_shape fields ((k, t) :: rest) =
  match parse t (assoc k fields), parse_shape fields rest with
  | Some (Some v), Some out => Some ((k, v) :: out)
  | Some None, Some out => Some out
  | _, _ => None
  end.
Proof. reflexivity. Qed.

(** Validation keeps no key that the shape does not name. *)
Lemma parse_shape_strips fields shape out k :
  k ∉ shape.*1 -> parse_shape fields shape = Some out -> assoc k out = None.
Proof.
  revert out. induction shape as [|[k0 t0] rest IH]; intros out Hk Hp.
  - now injection Hp as <-.
  - cbn in Hk. apply not_elem_of_cons in Hk as [Hne Hk].
    rewrite parse_shape_cons in Hp.
    destruct (parse t0 _) as [[v|]|]; [| |discriminate];
      destruct (parse_shape fields rest) as [out'|]; try discriminate;
      injection Hp as <-.
    + cbn [assoc]. destruct (String.eqb_spec k k0); [done|]. now apply IH.
    + now apply IH.
Qed.

Lemma parse_shape_lookup fields shape out k t :
  NoDup shape.*1 -> (k, t) ∈ shape -> parse_shape fields shape = Some out ->
  exists v, parse t (assoc k fields) = Some v /\ assoc k out = v.
Proof.
  revert out. induction shape as [|[k0 t0] rest IH]; intros out Hnd Hin Hp.
  - now apply elem_of_nil in Hin.
  - cbn in Hnd. apply list.NoDup_cons in Hnd as [Hk0 Hnd].
    rewrite parse_shape_cons in Hp.
    destruct (parse t0 (assoc k0 fields)) as [v0|] eqn:Hv0; [|discriminate].
    destruct (parse_shape fields rest) as [out'|] eqn:Hrest;
      [|now destruct v0].
    apply elem_of_cons in Hin as [[= -> ->]|Hin].
    + exists v0. split; [exact Hv0|]. destruct v0 as [x|]; injection Hp as <-.
      * cbn [assoc]. now rewrite String.eqb_refl.
      * now apply (parse_shape_strips fields rest).
    + destruct (IH out' Hnd Hin eq_refl) as (v & Hv & Hout).
      exists v. split; [exact Hv|].
      assert (Hne : k <> k0).
      { intros ->. apply Hk0. apply list_elem_of_fmap. now exists (k0, t). }
      destruct v0 as [x|]; injection Hp as <-; [|exact Hout].
      cbn [assoc]. now destruct (String.eqb_spec k k0).
Qed.

(** *** What validation leaves of a message sequence *)

Lemma parse_wire_message roles x y :
  parse (z_object [("role", z_enum roles); ("content", z_string)]) (Some x)
    = Some y ->
  exists r c,
    y = Some (wire_message r c)
    /\ V1_0_0.as_message x = {| V1_0_0.role := r; V1_0_0.content := c |}
    /\ existsb (String.eqb r) roles = true.
Proof.
  destruct x as [| | | | |fields]; try discriminate.
  rewrite parse_object_unfold, !parse_shape_cons. cbn [parse_shape parse].
  unfold V1_0_0.as_message. cbn [prop].
  destruct (assoc "role" fields) as [[| | |r| |]|]; try discriminate.
  destruct (existsb (String.eqb r) roles) eqn:Hr; [|discriminate].
  destruct (assoc "content" fields) as [[| | |c| |]|]; try discriminate.
  intros [= <-]. now exists r, c.
Qed.

Lemma mapM_wire_messages roles items out :
  mapM
    (fun x =>
       element_value <$>
         parse (z_object [("role", z_enum roles); ("content", z_string)])
           (Some x))
    items = Some out ->
  out = map (fun m => wire_message (V1_0_0.role m) (V1_0_0.content m))
          (map V1_0_0.as_message items)
  /\ Forall (fun m => existsb (String.eqb (V1_0_0.role m)) roles = true)
       (map V1_0_0.as_message items).
Proof.
  revert out. induction items as [|x items IH]; intros out Hm.
  - injection Hm as <-. now split.
  - cbn [mapM] in Hm.
    destruct (parse _ (Some x)) as [y|] eqn:Hx; [|discriminate Hm].
    destruct (parse_wire_message _ _ _ Hx) as (r & c & -> & Hview & Hr).
    cbn in Hm. destruct (mapM _ items) as [out'|]; [|discriminate Hm].
    injection Hm as <-. destruct (IH out' eq_refl) as [-> Hall].
    cbn [map]. rewrite Hview. split; [reflexivity|]. now constructor.
Qed.

Lemma as_messages_wire ms :
  V1_0_0.as_messages
    (Some (JArr (map (fun m => wire_message (V1_0_0.role m) (V1_0_0.content m))
                   ms)))
  = ms.
Proof.
  cbn [V1_0_0.as_messages]. induction ms as [|[r c] ms IH]; [reflexivity|].
  cbn [map]. now rewrite IH.
Qed.

(** The reshaper of revision 1.0.0 reads validated parameters: their
    messages are those of the arguments, with roles user, assistant or
    system, and the typed view of them loses nothing. *)
Lemma validated_messages args params :
  parse V1_0_0.WebSearchResponsesSchema (Some args) = Some (Some params) ->
  exists ms,
    V1_0_0.as_messages (prop "messages" args) = ms
    /\ V1_0_0.as_messages (prop "messages" params) = ms
    /\ prop "messages" params
       = Some (JArr (map (fun m =>
                            wire_message (V1_0_0.role m) (V1_0_0.content m)) ms))
    /\ Forall
         (fun m =>
            existsb (String.eqb (V1_0_0.role m)) ["user"; "assistant"; "system"]
            = true) ms.
Proof.
  intros Hp. destruct args as [| | | | |fields]; try discriminate Hp.
  unfold V1_0_0.WebSearchResponsesSchema in Hp.
  rewrite parse_object_unfold in Hp.
  match type of Hp with
  | match ?e with _ => _ end = _ => destruct e as [out|] eqn:Hshape
  end; [|discriminate].
  injection Hp as <-.
  eapply parse_shape_lookup in Hshape as (v & Hv & Hout);
    [|apply (bool_decide_unpack _); reflexivity
     |do 2 apply list_elem_of_further; apply list_elem_of_here].
  rewrite parse_describe in Hv. cbn [prop].
  destruct (assoc "messages" fields) as [[| | | |items|]|]; try discriminate Hv.
  rewrite parse_array in Hv.
  destruct (mapM _ items) as [out_items|] eqn:Hm; [|discriminate Hv].
  injection Hv as <-. destruct (mapM_wire_messages _ _ _ Hm) as [-> Hall].
  exists (map V1_0_0.as_message items).
  split; [reflexivity|]. rewrite Hout. split; [apply as_messages_wire|].
  split; [reflexivity|exact Hall].
Qed.

(** *** Roles of [web_search_responses] *)

Lemma parse_message_developer m :
  prop "role" m = Some (JStr "developer") ->
  parse
    (z_object
       [("role", z_enum ["user"; "assistant"; "system"]);
        ("content", z_string)])
    (Some m)
  = None.
Proof.
  intros Hrole. destruct m as [| | | | |fields]; try discriminate Hrole.
  rewrite parse_object_unfold. cbn [prop] in Hrole.
  erewrite parse_shape_rejects; [reflexivity|apply list_elem_of_here|].
  now rewrite Hrole.
Qed.

Lemma parse_messages_developer items m :
  m ∈ items -> prop "role" m = Some (JStr "developer") ->
  parse
    (z_array
       (z_object
          [("role", z_enum ["user"; "assistant"; "system"]);
           ("content", z_string)]))
    (Some (JArr items))
  = None.
Proof.
  intros Hin Hrole. rewrite parse_array.
  erewrite mapM_rejects; [reflexivity|exact Hin|].
  now rewrite parse_message_developer.
Qed.

End Validation.

(** * The claims *)

Section ReshaperClaims.

Import V1_0_0.

Lemma exists_snoc (ns : list Message) :
  ns <> [] -> exists init l, ns = init ++ [l].
Proof.
  destruct ns as [|l init _] using rev_ind; [done|]. intros _. eauto.
Qed.

Lemma all_system_partitions (ms : list Message) :
  Forall (fun m => role m = "system") ms ->
  systemMessages ms = ms /\ nonSystemMessages ms = [].
Proof.
  intros Hall. unfold systemMessages, nonSystemMessages. split.
  - induction Hall as [|x l Hx _ IH]; [reflexivity|].
    now rewrite filter_cons_True, IH.
  - apply filter_none. eapply list.Forall_impl; [exact Hall|].
    intros x Hx Hn. now apply Hn.
Qed.

Lemma requestBody_sent key remote params log :
  (performWebSearchResponses key remote params log).2 =
  log ++ [post_request key "https://api.openai.com/v1/responses"
            (JSON_stringify
               (requestBody params
                  (reshape (as_messages (prop "messages" params)))))].
Proof. apply forward_log. Qed.

(** C1 (code defect).  The claim: with a user-role message present,
    [input] is the content of the last user-role message and the context
    is the non-system messages before it.  On the validated request whose
    messages are an empty user message followed by an assistant message,
    the last user-role message is the first one, yet the reshaper returns
    the assistant's content as [input], keeps the user message as context,
    and that input is what is sent. *)
Lemma C1_empty_user_message_is_skipped :
  let ms := [{| role := "user"; content := "" |};
             {| role := "assistant"; content := "hi" |}] in
  let args :=
    JObj [("model", JStr "gpt-4o"); ("tools", JArr []);
          ("messages", JArr [wire_message "user" ""; wire_message "assistant" "hi"])] in
  last_user ms [] {| role := "user"; content := "" |}
    [{| role := "assistant"; content := "hi" |}]
  /\ parse WebSearchResponsesSchema (Some args) = Some (Some args)
  /\ as_messages (prop "messages" args) = ms
  /\ input (reshape ms) = "hi"
  /\ previousMessages (reshape ms) = [{| role := "user"; content := "" |}]
  /\ body <$> (callTool None ok_remote "web_search_responses" (Some args) []).2
     = [JObj [("model", JStr "gpt-4o"); ("tools", JArr []);
              ("input", JStr "hi")]].
Proof.
  cbn zeta. repeat split; try reflexivity.
  repeat constructor. discriminate.
Qed.

(** C2.  When the sequence contains a system-role message, [instructions]
    is the content of the last one, whatever system messages precede it;
    that value is the [instructions] field of the body that is sent. *)
Theorem C2_instructions_is_last_system_message
    key remote params log ms pre s post :
  as_messages (prop "messages" params) = ms ->
  last_system ms pre s post ->
  instructions (reshape ms) = Some (content s)
  /\ exists request,
       (performWebSearchResponses key remote params log).2 = log ++ [request]
       /\ prop "instructions" (body request) = Some (JStr (content s)).
Proof.
  intros Hms Hlast.
  assert (Hi : instructions (reshape ms) = Some (content s)).
  { rewrite reshape_instructions. destruct Hlast as (-> & Hs & Hpost).
    now rewrite systemMessages_split. }
  split; [exact Hi|]. eexists. split; [apply requestBody_sent|].
  cbn [body post_request]. rewrite prop_JSON_stringify by apply requestBody_NoDup.
  now rewrite requestBody_instructions, Hms, Hi.
Qed.

Lemma C2_witness :
  let params :=
    JObj [("model", JStr "gpt-4o"); ("tools", JArr []);
          ("messages",
            JArr [wire_message "system" "Be brief";
                  wire_message "user" "What's the weather?";
                  wire_message "system" "Be concise";
                  wire_message "assistant" "Sunny."])] in
  instructions (reshape (as_messages (prop "messages" params)))
  = Some "Be concise"
  /\ exists request,
       (performWebSearchResponses None ok_remote params []).2 = [] ++ [request]
       /\ prop "instructions" (body request) = Some (JStr "Be concise").
Proof.
  cbn zeta.
  apply (C2_instructions_is_last_system_message None ok_remote _ []
           _
           [{| role := "system"; content := "Be brief" |};
            {| role := "user"; content := "What's the weather?" |}]
           {| role := "system"; content := "Be concise" |}
           [{| role := "assistant"; content := "Sunny." |}]).
  - reflexivity.
  - repeat split. repeat constructor. discriminate.
Defined.

Lemma forward_ok key remote target payload prefix response result log :
  remote (post_request key target payload) = Resolved response ->
  ok response = true ->
  body_json response = inr result ->
  io_try
    (let! response := fetch key remote target payload in
     check_response response)
    (rethrow prefix) log
  = (inr result, log ++ [post_request key target payload]).
Proof.
  intros Hremote Hok Hjson. unfold io_try, io_bind, fetch, check_response.
  now rewrite Hremote, Hok, Hjson.
Qed.

(** C4 (amended).  When the conversation has a non-system message: with no
    user-role message, [input] is the content of the most recent non-system
    message, and it is non-empty exactly when that content is; with a last
    user-role message whose content is non-empty, [input] is that content,
    hence non-empty. *)
Theorem C4_input_from_non_system_messages ms :
  nonSystemMessages ms <> [] ->
  (Forall (fun m => role m <> "user") ms ->
   exists init l,
     nonSystemMessages ms = init ++ [l]
     /\ input (reshape ms) = content l
     /\ (input (reshape ms) <> "" <-> content l <> ""))
  /\ (forall pre m post,
        last_user ms pre m post -> content m <> "" ->
        input (reshape ms) = content m /\ input (reshape ms) <> "").
Proof.
  intros Hne. split.
  - intros Hno. destruct (exists_snoc _ Hne) as (init & l & Hns).
    exists init, l. split; [exact Hns|].
    destruct (reshape_no_user ms init l Hno Hns) as [-> _].
    split; [reflexivity|tauto].
  - intros pre m post Hlast Hm.
    destruct (reshape_last_user ms pre m post Hlast Hm) as [-> _].
    split; [reflexivity|exact Hm].
Qed.

Lemma C4_witness :
  let quiet := [{| role := "system"; content := "Be concise" |};
                {| role := "assistant"; content := "Sunny." |};
                {| role := "assistant"; content := "Windy." |};
                {| role := "system"; content := "Be kind" |}] in
  let asked := [{| role := "assistant"; content := "" |};
                {| role := "user"; content := "And tomorrow?" |};
                {| role := "assistant"; content := "" |}] in
  (nonSystemMessages quiet <> []
   /\ Forall (fun m => role m <> "user") quiet
   /\ nonSystemMessages asked <> []
   /\ last_user asked [{| role := "assistant"; content := "" |}]
        {| role := "user"; content := "And tomorrow?" |}
        [{| role := "assistant"; content := "" |}])
  /\ (exists init l,
        nonSystemMessages quiet = init ++ [l]
        /\ input (reshape quiet) = content l
        /\ (input (reshape quiet) <> "" <-> content l <> ""))
  /\ input (reshape quiet) = "Windy."
  /\ input (reshape asked) = "And tomorrow?"
  /\ input (reshape asked) <> "".
Proof.
  cbn zeta.
  assert (Hquiet : nonSystemMessages
            [{| role := "system"; content := "Be concise" |};
             {| role := "assistant"; content := "Sunny." |};
             {| role := "assistant"; content := "Windy." |};
             {| role := "system"; content := "Be kind" |}] <> [])
    by discriminate.
  assert (Hno : Forall (fun m => role m <> "user")
            [{| role := "system"; content := "Be concise" |};
             {| role := "assistant"; content := "Sunny." |};
             {| role := "assistant"; content := "Windy." |};
             {| role := "system"; content := "Be kind" |}])
    by (repeat constructor; discriminate).
  assert (Hasked : nonSystemMessages
            [{| role := "assistant"; content := "" |};
             {| role := "user"; content := "And tomorrow?" |};
             {| role := "assistant"; content := "" |}] <> [])
    by discriminate.
  assert (Hlast : last_user
            [{| role := "assistant"; content := "" |};
             {| role := "user"; content := "And tomorrow?" |};
             {| role := "assistant"; content := "" |}]
            [{| role := "assistant"; content := "" |}]
            {| role := "user"; content := "And tomorrow?" |}
            [{| role := "assistant"; content := "" |}])
    by (repeat split; repeat constructor; discriminate).
  destruct (C4_input_from_non_system_messages _ Hquiet) as [Hfall _].
  destruct (C4_input_from_non_system_messages _ Hasked) as [_ Huser].
  split; [exact (conj Hquiet (conj Hno (conj Hasked Hlast)))|].
  split; [exact (Hfall Hno)|]. split; [reflexivity|].
  apply (Huser _ _ _ Hlast). discriminate.
Defined.

(** C4, as stated, fails: a conversation of one system message has a
    message and an empty [input]; with no user-role message the fallback is
    the last non-system message, not the most recent message of any role;
    and a conversation whose only message is an assistant message with
    empty content has an empty [input]. *)
Lemma C4_counterexample :
  (let ms := [{| role := "system"; content := "Be concise" |}] in
   ms <> [] /\ input (reshape ms) = "")
  /\ (let ms := [{| role := "assistant"; content := "Sunny." |};
                 {| role := "system"; content := "Be concise" |}] in
      list.last ms = Some {| role := "system"; content := "Be concise" |}
      /\ input (reshape ms) = "Sunny.")
  /\ (let ms := [{| role := "assistant"; content := "" |}] in
      ms <> [] /\ Forall (fun m => role m <> "user") ms
      /\ list.last ms = Some {| role := "assistant"; content := "" |}
      /\ input (reshape ms) = "").
Proof.
  cbn zeta. repeat split; try discriminate. repeat constructor. discriminate.
Qed.

(** C5.  A non-empty conversation of system-role messages only gives an
    empty [input] and [instructions] defined as the content of the last
    message; the request is sent with that empty input, and an ok answer of
    the remote end is returned as the result. *)
Theorem C5_system_only_conversation key remote params log ms :
  as_messages (prop "messages" params) = ms ->
  ms <> [] ->
  Forall (fun m => role m = "system") ms ->
  exists s request,
    list.last ms = Some s
    /\ input (reshape ms) = ""
    /\ instructions (reshape ms) = Some (content s)
    /\ (performWebSearchResponses key remote params log).2 = log ++ [request]
    /\ prop "input" (body request) = Some (JStr "")
    /\ prop "instructions" (body request) = Some (JStr (content s))
    /\ forall response result,
         remote request = Resolved response ->
         ok response = true ->
         body_json response = inr result ->
         (performWebSearchResponses key remote params log).1 = inr result.
Proof.
  intros Hms Hne Hall.
  destruct (all_system_partitions ms Hall) as [Hsys Hnon].
  destruct (exists_snoc _ Hne) as (init & s & Hsnoc).
  assert (Hlast : list.last ms = Some s) by (rewrite Hsnoc; apply last_snoc).
  destruct (reshape_no_messages ms Hnon) as [Hinput _].
  assert (Hi : instructions (reshape ms) = Some (content s)).
  { now rewrite reshape_instructions, Hsys, Hlast. }
  exists s. eexists. split; [exact Hlast|]. split; [exact Hinput|].
  split; [exact Hi|]. split; [apply requestBody_sent|].
  cbn [body post_request].
  rewrite !prop_JSON_stringify by apply requestBody_NoDup.
  rewrite requestBody_input, requestBody_instructions, Hms, Hinput, Hi.
  split; [reflexivity|]. split; [reflexivity|].
  intros response result Hremote Hok Hjson.
  unfold performWebSearchResponses.
  erewrite forward_ok; [reflexivity| |exact Hok|exact Hjson].
  now rewrite Hms.
Qed.

Lemma C5_witness :
  let params :=
    JObj [("model", JStr "gpt-4o"); ("tools", JArr []);
          ("messages",
            JArr [wire_message "system" "Be brief";
                  wire_message "system" "Be concise"])] in
  let ms := as_messages (prop "messages" params) in
  (ms <> [] /\ Forall (fun m => role m = "system") ms)
  /\ input (reshape ms) = ""
  /\ instructions (reshape ms) = Some "Be concise"
  /\ exists request,
       (performWebSearchResponses None ok_remote params []).2 = [] ++ [request]
       /\ prop "input" (body request) = Some (JStr "")
       /\ (performWebSearchResponses None ok_remote params []).1
          = inr (JObj []).
Proof.
  cbn zeta.
  destruct (C5_system_only_conversation None ok_remote
              (JObj [("model", JStr "gpt-4o"); ("tools", JArr []);
                     ("messages",
                       JArr [wire_message "system" "Be brief";
                             wire_message "system" "Be concise"])])
              [] _ eq_refl)
    as (s & request & Hlast & Hinput & Hi & Hsent & Hbody & _ & Hresult).
  - discriminate.
  - repeat constructor.
  - split; [split; [discriminate|repeat constructor]|].
    split; [exact Hinput|]. split; [now rewrite Hi; injection Hlast as <-|].
    exists request. split; [exact Hsent|]. split; [exact Hbody|].
    now apply (Hresult
                 {| status := 200; body_text := "{}";
                    body_json := inr (JObj []) |}).
Defined.

(** C10.  When the last user-role message has empty content, the fallback
    block runs although a user-role message exists: [input] is the content
    of the last non-system message and the context is every non-system
    message before that one. *)
Theorem C10_empty_last_user_message_falls_back ms pre m post :
  last_user ms pre m post ->
  content m = "" ->
  exists init l,
    nonSystemMessages ms = init ++ [l]
    /\ input (reshape ms) = content l
    /\ previousMessages (reshape ms) = init.
Proof.
  intros Hlast Hc.
  assert (Hne : nonSystemMessages ms <> []).
  { destruct Hlast as (-> & Hm & _). rewrite nonSystemMessages_split by done.
    now destruct (nonSystemMessages pre). }
  destruct (exists_snoc _ Hne) as (init & l & Hns).
  exists init, l. split; [exact Hns|].
  exact (reshape_last_user_empty ms pre m post init l Hlast Hc Hns).
Qed.

Lemma C10_witness :
  let ms := [{| role := "user"; content := "What's the weather?" |};
             {| role := "system"; content := "Be concise" |};
             {| role := "user"; content := "" |};
             {| role := "assistant"; content := "Sunny." |}] in
  exists init l,
    nonSystemMessages ms = init ++ [l]
    /\ input (reshape ms) = content l
    /\ previousMessages (reshape ms) = init.
Proof.
  cbn zeta.
  apply (C10_empty_last_user_message_falls_back _
           [{| role := "user"; content := "What's the weather?" |};
            {| role := "system"; content := "Be concise" |}]
           {| role := "user"; content := "" |}
           [{| role := "assistant"; content := "Sunny." |}]).
  - repeat split. repeat constructor. discriminate.
  - reflexivity.
Defined.

End ReshaperClaims.

Section PipelineClaims.

Lemma run_tool_log (m : IO json) log : (run_tool m log).2 = (m log).2.
Proof. unfold run_tool. now destruct (m log) as [[e|v] log']. Qed.

Lemma validate_then_accepts schema args params perform log :
  parse schema (Some args) = Some (Some params) ->
  validate_then schema args perform log = run_tool (perform params) log.
Proof. intros H. unfold validate_then. now rewrite H. Qed.

Lemma validate_then_rejects schema args perform log :
  parse schema (Some args) = None ->
  validate_then schema args perform log = (inl InvalidInput, log).
Proof. intros H. unfold validate_then. now rewrite H. Qed.

(** The [input] entry of revision 1.1.2 on a string and on an array. *)
Lemma parse_input_string s :
  parse
    (describe
       (z_union
          [z_string;
           z_array
             (z_object
                [("role", z_enum ["user"; "assistant"; "system"]);
                 ("content", z_string)])])
       "Conversation messages (will be converted to input/instructions format)")
    (Some (JStr s))
  = Some (Some (JStr s)).
Proof. reflexivity. Qed.

Lemma parse_input_array items :
  parse
    (describe
       (z_union
          [z_string;
           z_array
             (z_object
                [("role", z_enum ["user"; "assistant"; "system"]);
                 ("content", z_string)])])
       "Conversation messages (will be converted to input/instructions format)")
    (Some (JArr items))
  = parse
      (z_array
         (z_object
            [("role", z_enum ["user"; "assistant"; "system"]);
             ("content", z_string)]))
      (Some (JArr items)).
Proof.
  rewrite parse_describe, parse_union_unfold. cbn [first_valid].
  change (parse z_string (Some (JArr items))) with (@None (option json)).
  now destruct (parse (z_array _) _).
Qed.

Lemma parse_responses_inv args params :
  parse V1_1_2.WebSearchResponsesSchema (Some args) = Some (Some params) ->
  exists fields out vi,
    args = JObj fields /\ params = JObj out
    /\ parse
         (describe
            (z_union
               [z_string;
                z_array
                  (z_object
                     [("role", z_enum ["user"; "assistant"; "system"]);
                      ("content", z_string)])])
            "Conversation messages (will be converted to input/instructions format)")
         (assoc "input" fields) = Some vi
    /\ assoc "input" out = vi
    /\ assoc "instructions" out = None
    /\ assoc "previous_response_id" out = None.
Proof.
  intros Hp. destruct args as [| | | | |fields]; try discriminate Hp.
  unfold V1_1_2.WebSearchResponsesSchema in Hp.
  rewrite parse_object_unfold in Hp.
  match type of Hp with
  | match ?e with _ => _ end = _ => destruct e as [out|] eqn:Hshape
  end; [|discriminate].
  injection Hp as <-.
  assert (Hi : assoc "instructions" out = None).
  { eapply parse_shape_strips; [|exact Hshape]. apply (bool_decide_unpack _).
    reflexivity. }
  assert (Hprev : assoc "previous_response_id" out = None).
  { eapply parse_shape_strips; [|exact Hshape]. apply (bool_decide_unpack _).
    reflexivity. }
  rewrite !parse_shape_cons in Hshape. cbn [parse_shape] in Hshape.
  destruct (parse (describe (z_enum ["gpt-4o"]) _) (assoc "model" fields))
    as [[vm|]|]; [| |discriminate];
    (destruct (parse (describe (z_array _) _) (assoc "tools" fields))
       as [[vt|]|]; [| |discriminate]);
    (destruct (parse (describe (z_union _) _) (assoc "input" fields))
       as [vi|] eqn:Hin; [|discriminate]);
    exists fields, out, vi; destruct vi as [vi|]; injection Hshape as <-;
    repeat split; try done.
Qed.

(** What validation makes of one message: an object that has exactly the
    role and the content of the argument, which are strings. *)
Lemma parse_wire_message_props roles x y :
  parse (z_object [("role", z_enum roles); ("content", z_string)]) (Some x)
    = Some y ->
  exists r c,
    prop "role" x = Some (JStr r) /\ prop "content" x = Some (JStr c)
    /\ y = Some (wire_message r c).
Proof.
  destruct x as [| | | | |fields]; try discriminate.
  rewrite parse_object_unfold, !parse_shape_cons. cbn [parse_shape parse prop].
  destruct (assoc "role" fields) as [[| | |r| |]|]; try discriminate.
  destruct (existsb (String.eqb r) roles); [|discriminate].
  destruct (assoc "content" fields) as [[| | |c| |]|]; try discriminate.
  intros [= <-]. now exists r, c.
Qed.

(** Validation of a message array goes element by element, in order. *)
Lemma mapM_wire_Forall2 roles items out :
  mapM
    (fun x =>
       element_value <$>
         parse (z_object [("role", z_enum roles); ("content", z_string)])
           (Some x))
    items = Some out ->
  Forall2
    (fun x y =>
       exists r c,
         prop "role" x = Some (JStr r) /\ prop "content" x = Some (JStr c)
         /\ y = wire_message r c)
    items out.
Proof.
  revert out. induction items as [|x items IH]; intros out Hm.
  - injection Hm as <-. constructor.
  - cbn [mapM] in Hm.
    destruct (parse _ (Some x)) as [y|] eqn:Hx; [|discriminate Hm].
    destruct (parse_wire_message_props _ _ _ Hx) as (r & c & Hr & Hc & ->).
    cbn in Hm. destruct (mapM _ items) as [out'|]; [|discriminate Hm].
    injection Hm as <-. constructor; [now exists r, c|now apply IH].
Qed.

Lemma Forall2_wire_unchanged items out :
  Forall2
    (fun x y =>
       exists r c,
         prop "role" x = Some (JStr r) /\ prop "content" x = Some (JStr c)
         /\ y = wire_message r c)
    items out ->
  Forall (fun x => exists r c, x = wire_message r c) items ->
  out = items.
Proof.
  induction 1 as [|x y items out (r & c & Hr & Hc & ->) _ IH]; intros Hall;
    [reflexivity|].
  apply list.Forall_cons in Hall as [(r' & c' & ->) Hall].
  cbn in Hr, Hc. injection Hr as <-. injection Hc as <-.
  now rewrite IH.
Qed.

(** C3 (amended).  In revision 1.1.2 the body sent for
    [web_search_responses] is the validated parameter object itself: a
    plain-string [input] is forwarded unchanged; a message sequence is
    forwarded as the same sequence, each message with its own role and
    content and in the original order, unchanged when the messages have no
    other key; and no [instructions] or [previous_response_id] is derived.
    In revision 1.0.0, whose request carries [messages], the body sent has
    the reshaper's [input] and [instructions]. *)
Theorem C3_responses_body key remote args params log :
  parse V1_1_2.WebSearchResponsesSchema (Some args) = Some (Some params) ->
  (V1_1_2.callTool key remote "web_search_responses" (Some args) log).2
    = log ++ [post_request key "https://api.openai.com/v1/responses" params]
  /\ (forall s, prop "input" args = Some (JStr s) ->
        prop "input" params = Some (JStr s))
  /\ (forall items, prop "input" args = Some (JArr items) ->
        exists items',
          prop "input" params = Some (JArr items')
          /\ length items' = length items
          /\ Forall2
               (fun x y =>
                  exists r c,
                    prop "role" x = Some (JStr r)
                    /\ prop "content" x = Some (JStr c)
                    /\ y = wire_message r c)
               items items'
          /\ (Forall (fun x => exists r c, x = wire_message r c) items ->
              items' = items))
  /\ prop "instructions" params = None
  /\ prop "previous_response_id" params = None
  /\ forall params0, exists request,
       (V1_0_0.performWebSearchResponses key remote params0 log).2
         = log ++ [request]
       /\ reshaped_form (V1_0_0.as_messages (prop "messages" params0))
            (body request).
Proof.
  intros Hp. split; [|].
  { change (V1_1_2.callTool key remote "web_search_responses" (Some args))
      with (validate_then V1_1_2.WebSearchResponsesSchema args
              (V1_1_2.performWebSearchResponses key remote)).
    rewrite (validate_then_accepts _ _ _ _ _ Hp), run_tool_log.
    apply forward_log. }
  destruct (parse_responses_inv _ _ Hp)
    as (fields & out & vi & -> & -> & Hin & Hout & Hi & Hprev).
  cbn [prop]. repeat split; try done.
  - intros s Hs. rewrite Hs, parse_input_string in Hin. congruence.
  - intros items Hitems.
    rewrite Hitems, parse_input_array, parse_array in Hin.
    destruct (mapM _ items) as [items'|] eqn:Hm; [|discriminate].
    pose proof (mapM_wire_Forall2 _ _ _ Hm) as Hall.
    exists items'. split; [congruence|].
    split; [symmetry; exact (length_mapM _ _ _ Hm)|].
    split; [exact Hall|]. now apply Forall2_wire_unchanged.
  - intros params0. eexists. split; [apply requestBody_sent|].
    unfold reshaped_form. cbn [body post_request].
    rewrite !prop_JSON_stringify by apply requestBody_NoDup.
    now rewrite requestBody_input, requestBody_instructions.
Qed.

Lemma C3_witness :
  let sequence :=
    JObj [("model", JStr "gpt-4o"); ("tools", JArr []);
          ("input",
            JArr [wire_message "system" "Be concise"; wire_message "user" "hi"])] in
  let text :=
    JObj [("model", JStr "gpt-4o"); ("tools", JArr []);
          ("input", JStr "And tomorrow?")] in
  (parse V1_1_2.WebSearchResponsesSchema (Some sequence) = Some (Some sequence)
   /\ parse V1_1_2.WebSearchResponsesSchema (Some text) = Some (Some text))
  /\ (V1_1_2.callTool None ok_remote "web_search_responses" (Some sequence) []).2
     = [] ++ [post_request None "https://api.openai.com/v1/responses" sequence]
  /\ prop "instructions" sequence = None
  /\ (V1_1_2.callTool None ok_remote "web_search_responses" (Some text) []).2
     = [] ++ [post_request None "https://api.openai.com/v1/responses" text]
  /\ prop "input" text = Some (JStr "And tomorrow?")
  /\ exists items',
       prop "input" sequence = Some (JArr items')
       /\ items'
          = [wire_message "system" "Be concise"; wire_message "user" "hi"].
Proof.
  cbn zeta. split; [split; reflexivity|].
  destruct (C3_responses_body None ok_remote
              (JObj [("model", JStr "gpt-4o"); ("tools", JArr []);
                     ("input",
                       JArr [wire_message "system" "Be concise";
                             wire_message "user" "hi"])])
              _ [] eq_refl) as (Hsent & _ & Hsequence & Hi & _).
  destruct (C3_responses_body None ok_remote
              (JObj [("model", JStr "gpt-4o"); ("tools", JArr []);
                     ("input", JStr "And tomorrow?")])
              _ [] eq_refl) as (Hsent' & Hstring & _).
  split; [exact Hsent|]. split; [exact Hi|]. split; [exact Hsent'|].
  split; [now apply Hstring|].
  destruct (Hsequence _ eq_refl) as (items' & Hinput & _ & _ & Hsame).
  exists items'. split; [exact Hinput|].
  apply Hsame. repeat constructor; eauto.
Defined.

(** C3, as stated, fails on a message sequence in revision 1.1.2: the
    validated request below is sent as it is, so the body's [input] is the
    sequence and not the reshaper's string, and it has no
    [instructions]. *)
Lemma C3_counterexample :
  let ms := [{| V1_0_0.role := "system"; V1_0_0.content := "Be concise" |};
             {| V1_0_0.role := "user"; V1_0_0.content := "hi" |}] in
  let args :=
    JObj [("model", JStr "gpt-4o"); ("tools", JArr []);
          ("input",
            JArr [wire_message "system" "Be concise"; wire_message "user" "hi"])] in
  parse V1_1_2.WebSearchResponsesSchema (Some args) = Some (Some args)
  /\ V1_0_0.as_messages (prop "input" args) = ms
  /\ exists request,
       (V1_1_2.callTool None ok_remote "web_search_responses" (Some args) []).2
         = [request]
       /\ prop "input" (body request)
          = Some (JArr [wire_message "system" "Be concise";
                        wire_message "user" "hi"])
       /\ ~ reshaped_form ms (body request).
Proof.
  cbn zeta. split; [reflexivity|]. split; [reflexivity|].
  eexists. split; [reflexivity|]. split; [reflexivity|].
  intros [Hinput _]. discriminate Hinput.
Qed.

(** C6.  A valid chat-completion request is accepted by the validator
    unchanged; the body sent has the request's [messages] as they are,
    and [web_search_options] is the request's, or the empty object when
    the request has none. *)
Theorem C6_chat_completion_passthrough key remote r log :
  valid_request r ->
  parse V1_1_2.WebSearchChatCompletionSchema (Some (request_json r))
    = Some (Some (request_json r))
  /\ exists request,
       (V1_1_2.callTool key remote "web_search_chat_completion"
          (Some (request_json r)) log).2 = log ++ [request]
       /\ url request = "https://api.openai.com/v1/chat/completions"
       /\ prop "messages" (body request) = prop "messages" (request_json r)
       /\ prop "messages" (body request)
          = Some (JArr (map message_json (messages r)))
       /\ prop "web_search_options" (body request)
          = Some (match web_search_options r with
                  | Some o => options_json o
                  | None => JObj []
                  end).
Proof.
  intros Hv. pose proof (parse_request_json r Hv) as Hp.
  split; [exact Hp|].
  change (V1_1_2.callTool key remote "web_search_chat_completion"
            (Some (request_json r)))
    with (validate_then V1_1_2.WebSearchChatCompletionSchema (request_json r)
            (performWebSearchChatCompletion key remote)).
  rewrite (validate_then_accepts _ _ _ _ _ Hp), run_tool_log.
  eexists. split; [apply forward_log|]. split; [reflexivity|].
  cbn [body post_request].
  rewrite !prop_JSON_stringify by (apply (bool_decide_unpack _); reflexivity).
  destruct (prop_request_json r) as (_ & Hm & Ho).
  unfold get. cbn [assoc String.eqb Ascii.eqb Bool.eqb mjoin option_join].
  rewrite Hm, Ho. repeat split.
  now destruct (web_search_options r).
Qed.

Lemma C6_witness :
  let r :=
    {| model := gpt_4o_search_preview;
       messages :=
         [{| msg_role := developer; msg_content := "Cite sources" |};
          {| msg_role := user; msg_content := "What's the weather?" |}];
       web_search_options := None |} in
  valid_request r
  /\ parse V1_1_2.WebSearchChatCompletionSchema (Some (request_json r))
     = Some (Some (request_json r))
  /\ exists request,
       (V1_1_2.callTool None ok_remote "web_search_chat_completion"
          (Some (request_json r)) []).2 = [] ++ [request]
       /\ prop "messages" (body request)
          = Some (JArr [wire_message "developer" "Cite sources";
                        wire_message "user" "What's the weather?"])
       /\ prop "web_search_options" (body request) = Some (JObj []).
Proof.
  cbn zeta.
  assert (Hv : valid_request
            {| model := gpt_4o_search_preview;
               messages :=
                 [{| msg_role := developer; msg_content := "Cite sources" |};
                  {| msg_role := user; msg_content := "What's the weather?" |}];
               web_search_options := None |})
    by (intros o Ho; discriminate Ho).
  split; [exact Hv|].
  destruct (C6_chat_completion_passthrough None ok_remote _ [] Hv)
    as (Hp & request & Hsent & _ & _ & Hm & Ho).
  split; [exact Hp|]. exists request. split; [exact Hsent|].
  split; [exact Hm|exact Ho].
Defined.

Lemma forward_raises key remote target payload prefix response log :
  ok response = false ->
  exists request,
    (io_try
       (let! response := fetch key remote target payload in
        check_response response)
       (rethrow prefix) log).2 = log ++ [request]
    /\ (remote request = Resolved response ->
        io_try
          (let! response := fetch key remote target payload in
           check_response response)
          (rethrow prefix) log
        = (inl (Error (prefix +:+ api_error_message response)),
           log ++ [request])).
Proof.
  intros Hok. eexists. split; [apply forward_log|].
  intros Hremote. now apply forward_not_ok.
Qed.

(** C7.  When the remote end answers the request with a status outside
    200-299, each perform function throws an [Error] whose message is its
    prefix followed by the status code and the raw body text, after
    sending exactly one request; the status code and the body text are
    determined by that message. *)
Theorem C7_non_2xx_raises key remote params response log :
  (status response < 200 \/ 299 < status response)%N ->
  (exists request,
     (performWebSearchChatCompletion key remote params log).2
       = log ++ [request]
     /\ (remote request = Resolved response ->
         performWebSearchChatCompletion key remote params log
         = (inl (Error ("Web search chat completion error: "
                          +:+ "OpenAI API Error: " +:+ pretty (status response)
                          +:+ " - " +:+ body_text response)),
            log ++ [request])))
  /\ (exists request,
       (V1_0_0.performWebSearchResponses key remote params log).2
         = log ++ [request]
       /\ (remote request = Resolved response ->
           V1_0_0.performWebSearchResponses key remote params log
           = (inl (Error ("Web search responses error: "
                            +:+ "OpenAI API Error: " +:+ pretty (status response)
                            +:+ " - " +:+ body_text response)),
              log ++ [request])))
  /\ (exists request,
       (V1_1_2.performWebSearchResponses key remote params log).2
         = log ++ [request]
       /\ (remote request = Resolved response ->
           V1_1_2.performWebSearchResponses key remote params log
           = (inl (Error ("Web search responses error: "
                            +:+ "OpenAI API Error: " +:+ pretty (status response)
                            +:+ " - " +:+ body_text response)),
              log ++ [request])))
  /\ (forall label other,
        label +:+ api_error_message response
          = label +:+ api_error_message other ->
        status response = status other
        /\ body_text response = body_text other).
Proof.
  intros Hstatus. pose proof (ok_false _ Hstatus) as Hok.
  repeat split.
  - exact (forward_raises key remote _ _ _ response log Hok).
  - exact (forward_raises key remote _ _ _ response log Hok).
  - exact (forward_raises key remote _ _ _ response log Hok).
  - eapply api_error_message_inj; eassumption.
  - eapply api_error_message_inj; eassumption.
Qed.

Lemma C7_witness :
  let response :=
    {| status := 429;
       body_text := rate_limited;
       body_json := inr (JObj [("error", JStr "rate_limited")]) |} in
  let params :=
    JObj [("model", JStr "gpt-4o-search-preview");
          ("messages", JArr [wire_message "user" "hi"])] in
  (status response < 200 \/ 299 < status response)%N
  /\ exists request,
       performWebSearchChatCompletion None rate_limiting_remote params []
       = (inl (Error ("Web search chat completion error: "
                        +:+ "OpenAI API Error: 429 - " +:+ rate_limited)),
          [] ++ [request]).
Proof.
  cbn zeta.
  assert (Hstatus :
    (status
       {| status := 429;
          body_text := rate_limited;
          body_json := inr (JObj [("error", JStr "rate_limited")]) |} < 200
     \/ 299 <
        status
          {| status := 429;
             body_text := rate_limited;
             body_json := inr (JObj [("error", JStr "rate_limited")]) |})%N)
    by (right; reflexivity).
  split; [exact Hstatus|].
  destruct (C7_non_2xx_raises None rate_limiting_remote
              (JObj [("model", JStr "gpt-4o-search-preview");
                     ("messages", JArr [wire_message "user" "hi"])])
              _ [] Hstatus) as ((request & _ & Hraise) & _).
  exists request. exact (Hraise eq_refl).
Defined.

(** C8 (amended).  In revision 1.0.0 the body sent carries the request's
    [previous_response_id] unchanged when the reshaper's context is not
    empty, and no [previous_response_id] when the context is empty. *)
Theorem C8_previous_response_id_needs_context key remote params log :
  exists request,
    (V1_0_0.performWebSearchResponses key remote params log).2
      = log ++ [request]
    /\ prop "previous_response_id" (body request)
       = match
           V1_0_0.previousMessages
             (V1_0_0.reshape (V1_0_0.as_messages (prop "messages" params)))
         with
         | [] => None
         | _ :: _ => prop "previous_response_id" params
         end.
Proof.
  eexists. split; [apply requestBody_sent|].
  cbn [body post_request].
  rewrite prop_JSON_stringify by apply requestBody_NoDup.
  rewrite requestBody_previous_response_id.
  now destruct (V1_0_0.previousMessages _).
Qed.

(** C8, as stated, fails: the validated request below carries a
    [previous_response_id], its single user message leaves the context
    empty, and the body sent has no [previous_response_id]. *)
Lemma C8_counterexample :
  let args :=
    JObj [("model", JStr "gpt-4o"); ("tools", JArr []);
          ("messages", JArr [wire_message "user" "And tomorrow?"]);
          ("previous_response_id", JStr "resp_123")] in
  parse V1_0_0.WebSearchResponsesSchema (Some args) = Some (Some args)
  /\ prop "previous_response_id" args = Some (JStr "resp_123")
  /\ exists request,
       (V1_0_0.callTool None ok_remote "web_search_responses" (Some args) []).2
         = [request]
       /\ body request
          = JObj [("model", JStr "gpt-4o"); ("tools", JArr []);
                  ("input", JStr "And tomorrow?")]
       /\ prop "previous_response_id" (body request) = None.
Proof.
  cbn zeta. split; [reflexivity|]. split; [reflexivity|].
  eexists. repeat split.
Qed.

(** C9 (amended).  The validator of [web_search_responses] rejects, in
    both revisions, every message sequence that has an element of role
    developer; the chat-completion entry accepts such an element, and the
    reshaper keeps any message whose role is not system. *)
Theorem C9_responses_reject_developer args items m :
  m ∈ items ->
  prop "role" m = Some (JStr "developer") ->
  (prop "messages" args = Some (JArr items) ->
   parse V1_0_0.WebSearchResponsesSchema (Some args) = None)
  /\ (prop "input" args = Some (JArr items) ->
      parse V1_1_2.WebSearchResponsesSchema (Some args) = None)
  /\ (forall c,
        parse ChatMessagesSchema (Some (JArr [wire_message "developer" c]))
        = Some (Some (JArr [wire_message "developer" c])))
  /\ (forall c,
        V1_0_0.process_messages
          [{| V1_0_0.role := "developer"; V1_0_0.content := c |}]
        = (None, [{| V1_0_0.role := "developer"; V1_0_0.content := c |}])).
Proof.
  intros Hin Hrole. repeat split.
  - intros Hargs. destruct args as [| | | | |fields]; try discriminate Hargs.
    cbn [prop] in Hargs. unfold V1_0_0.WebSearchResponsesSchema.
    rewrite parse_object_unfold.
    erewrite parse_shape_rejects; [reflexivity| |].
    + do 2 apply list_elem_of_further. apply list_elem_of_here.
    + rewrite Hargs, parse_describe. now apply parse_messages_developer with m.
  - intros Hargs. destruct args as [| | | | |fields]; try discriminate Hargs.
    cbn [prop] in Hargs. unfold V1_1_2.WebSearchResponsesSchema.
    rewrite parse_object_unfold.
    erewrite parse_shape_rejects; [reflexivity| |].
    + do 2 apply list_elem_of_further. apply list_elem_of_here.
    + rewrite Hargs, parse_input_array.
      now apply parse_messages_developer with m.
Qed.

Lemma C9_witness :
  let items := [wire_message "user" "hi"; wire_message "developer" "Cite sources"] in
  (wire_message "developer" "Cite sources" ∈ items
   /\ prop "role" (wire_message "developer" "Cite sources")
      = Some (JStr "developer"))
  /\ parse V1_0_0.WebSearchResponsesSchema
       (Some (JObj [("model", JStr "gpt-4o"); ("tools", JArr []);
                    ("messages", JArr items)])) = None
  /\ parse V1_1_2.WebSearchResponsesSchema
       (Some (JObj [("model", JStr "gpt-4o"); ("tools", JArr []);
                    ("input", JArr items)])) = None.
Proof.
  cbn zeta.
  assert (Hin : wire_message "developer" "Cite sources"
                ∈ [wire_message "user" "hi";
                   wire_message "developer" "Cite sources"])
    by (apply list_elem_of_further, list_elem_of_here).
  split; [now split|]. split.
  - destruct (C9_responses_reject_developer
                (JObj [("model", JStr "gpt-4o"); ("tools", JArr []);
                       ("messages",
                         JArr [wire_message "user" "hi";
                               wire_message "developer" "Cite sources"])])
                _ _ Hin eq_refl) as (Hold & _).
    now apply Hold.
  - destruct (C9_responses_reject_developer
                (JObj [("model", JStr "gpt-4o"); ("tools", JArr []);
                       ("input",
                         JArr [wire_message "user" "hi";
                               wire_message "developer" "Cite sources"])])
                _ _ Hin eq_refl) as (_ & Hnew & _).
    now apply Hnew.
Defined.

(** C9, as stated, fails: a request whose only message has role developer
    is rejected by the [web_search_responses] validator of both revisions,
    and the handler throws without sending anything. *)
Lemma C9_counterexample :
  let args_1_0_0 :=
    JObj [("model", JStr "gpt-4o"); ("tools", JArr []);
          ("messages", JArr [wire_message "developer" "Cite sources"])] in
  let args_1_1_2 :=
    JObj [("model", JStr "gpt-4o"); ("tools", JArr []);
          ("input", JArr [wire_message "developer" "Cite sources"])] in
  parse V1_0_0.WebSearchResponsesSchema (Some args_1_0_0) = None
  /\ parse V1_1_2.WebSearchResponsesSchema (Some args_1_1_2) = None
  /\ V1_0_0.callTool None ok_remote "web_search_responses" (Some args_1_0_0) []
     = (inl InvalidInput, [])
  /\ V1_1_2.callTool None ok_remote "web_search_responses" (Some args_1_1_2) []
     = (inl InvalidInput, []).
Proof. cbn zeta. repeat split. Qed.

End PipelineClaims.


(** * Further properties of the code *)

(** ** The tool-call handler of revision 1.1.2 *)

Section HandlerFacts.

Variable OPENAI_API_KEY : option string.
Variable remote : Request -> FetchOutcome.

(** The three statements of a perform function after its body is built:
    call, check, catch. *)
Lemma forward_outcome target payload label log :
  io_try
    (let! response := fetch OPENAI_API_KEY remote target payload in
     check_response response)
    (rethrow label) log
  = (settle label (remote (post_request OPENAI_API_KEY target payload)),
     log ++ [post_request OPENAI_API_KEY target payload]).
Proof.
  unfold io_try, io_bind, fetch, settle.
  destruct (remote _) as [[message|value]|response]; cbn; [done..|].
  unfold check_response, api_error_message.
  destruct (ok response); cbn; [|done].
  now destruct (body_json response).
Qed.

Lemma run_tool_forward target payload label log :
  run_tool
    (io_try
       (let! response := fetch OPENAI_API_KEY remote target payload in
        check_response response)
       (rethrow label)) log
  = (match settle label (remote (post_request OPENAI_API_KEY target payload)) with
     | inl e => inl (Raised e)
     | inr result => inr (tool_result result)
     end,
     log ++ [post_request OPENAI_API_KEY target payload]).
Proof. unfold run_tool. rewrite forward_outcome. now destruct (settle _ _). Qed.

Lemma snoc_not_self {A : Type} (l : list A) (x : A) : l <> l ++ [x].
Proof.
  intros H. apply (f_equal length) in H. rewrite length_app in H. cbn in H. lia.
Qed.

(** A parsed object is never [undefined]. *)
Lemma parse_object_defined shape x :
  parse (z_object shape) (Some x) <> Some None.
Proof.
  destruct x as [| | | | |fields]; try discriminate.
  rewrite parse_object_unfold. now destruct (parse_shape fields shape).
Qed.

Lemma callTool_chat_completion args log :
  V1_1_2.callTool OPENAI_API_KEY remote "web_search_chat_completion"
    (Some args) log
  = validate_then V1_1_2.WebSearchChatCompletionSchema args
      (performWebSearchChatCompletion OPENAI_API_KEY remote) log.
Proof. reflexivity. Qed.

Lemma callTool_responses args log :
  V1_1_2.callTool OPENAI_API_KEY remote "web_search_responses" (Some args) log
  = validate_then V1_1_2.WebSearchResponsesSchema args
      (V1_1_2.performWebSearchResponses OPENAI_API_KEY remote) log.
Proof. reflexivity. Qed.

Lemma callTool_unknown name args log :
  name <> "web_search_chat_completion" -> name <> "web_search_responses" ->
  V1_1_2.callTool OPENAI_API_KEY remote name (Some args) log
  = (inl (Raised (Error ("Unknown tool: " +:+ name))), log).
Proof.
  intros H1 H2. unfold V1_1_2.callTool.
  destruct (String.eqb_spec name "web_search_chat_completion"); [done|].
  now destruct (String.eqb_spec name "web_search_responses").
Qed.


(** X2.  Arguments the tool's schema rejects make the handler throw the
    invalid-input error, and no request is sent. *)
Theorem X2_invalid_arguments_send_nothing name schema args log :
  (name, schema)
    ∈ [("web_search_chat_completion", V1_1_2.WebSearchChatCompletionSchema);
       ("web_search_responses", V1_1_2.WebSearchResponsesSchema)] ->
  parse schema (Some args) = None ->
  V1_1_2.callTool OPENAI_API_KEY remote name (Some args) log
  = (inl InvalidInput, log).
Proof.
  intros Hin Hp.
  apply elem_of_cons in Hin as [[= -> ->]|Hin];
    [|apply list_elem_of_singleton in Hin as [= -> ->]].
  - rewrite callTool_chat_completion. now apply validate_then_rejects.
  - rewrite callTool_responses. now apply validate_then_rejects.
Qed.

(** X3.  Whenever the handler sends a request, it is a POST with the JSON
    content type and the bearer key, the arguments were accepted by the
    schema of the named tool, and the request goes to that tool's endpoint:
    the chat-completion body has the validated model and messages, the
    responses body is the validated parameters. *)
Theorem X3_sent_request name arguments log request :
  (V1_1_2.callTool OPENAI_API_KEY remote name arguments log).2
    = log ++ [request] ->
  method request = "POST"
  /\ headers request
     = [("Content-Type", "application/json");
        ("Authorization", "Bearer " +:+ template_env OPENAI_API_KEY)]
  /\ exists args params,
       arguments = Some args
       /\ ((name = "web_search_chat_completion"
            /\ parse V1_1_2.WebSearchChatCompletionSchema (Some args)
               = Some (Some params)
            /\ url request = "https://api.openai.com/v1/chat/completions"
            /\ prop "model" (body request) = prop "model" params
            /\ prop "messages" (body request) = prop "messages" params)
           \/ (name = "web_search_responses"
               /\ parse V1_1_2.WebSearchResponsesSchema (Some args)
                  = Some (Some params)
               /\ url request = "https://api.openai.com/v1/responses"
               /\ body request = params)).
Proof.
  intros Hsent. destruct arguments as [args|];
    [|now apply snoc_not_self in Hsent].
  destruct (String.eqb_spec name "web_search_chat_completion") as [->|Hchat].
  - rewrite callTool_chat_completion in Hsent. unfold validate_then in Hsent.
    destruct (parse V1_1_2.WebSearchChatCompletionSchema (Some args))
      as [[params|]|] eqn:Hp; try now apply snoc_not_self in Hsent.
    unfold performWebSearchChatCompletion in Hsent.
    rewrite run_tool_forward in Hsent. cbn [snd] in Hsent.
    apply app_inj_tail in Hsent as [_ <-]. cbn [method headers url body post_request].
    split; [reflexivity|]. split; [reflexivity|].
    exists args, params. split; [reflexivity|]. left.
    rewrite !prop_JSON_stringify by (apply (bool_decide_unpack _); reflexivity).
    now repeat split.
  - destruct (String.eqb_spec name "web_search_responses") as [->|Hresp].
    + rewrite callTool_responses in Hsent. unfold validate_then in Hsent.
      destruct (parse V1_1_2.WebSearchResponsesSchema (Some args))
        as [[params|]|] eqn:Hp; try now apply snoc_not_self in Hsent.
      unfold V1_1_2.performWebSearchResponses in Hsent.
      rewrite run_tool_forward in Hsent. cbn [snd] in Hsent.
      apply app_inj_tail in Hsent as [_ <-].
      cbn [method headers url body post_request].
      split; [reflexivity|]. split; [reflexivity|].
      exists args, params. split; [reflexivity|]. right. now repeat split.
    + rewrite callTool_unknown in Hsent by done.
      now apply snoc_not_self in Hsent.
Qed.

(** After a request is sent the result is what [settle] makes of the
    remote end's outcome, under the prefix of the tool. *)
Lemma callTool_sent name arguments log request :
  (V1_1_2.callTool OPENAI_API_KEY remote name arguments log).2
    = log ++ [request] ->
  exists label,
    ((name = "web_search_chat_completion"
      /\ label = "Web search chat completion error: ")
     \/ (name = "web_search_responses"
         /\ label = "Web search responses error: "))
    /\ V1_1_2.callTool OPENAI_API_KEY remote name arguments log
       = (match settle label (remote request) with
          | inl e => inl (Raised e)
          | inr result => inr (tool_result result)
          end,
          log ++ [request]).
Proof.
  intros Hsent. destruct arguments as [args|];
    [|now apply snoc_not_self in Hsent].
  destruct (String.eqb_spec name "web_search_chat_completion") as [->|Hchat].
  - rewrite callTool_chat_completion in *. unfold validate_then in *.
    destruct (parse V1_1_2.WebSearchChatCompletionSchema (Some args))
      as [[params|]|]; try now apply snoc_not_self in Hsent.
    unfold performWebSearchChatCompletion in *.
    rewrite run_tool_forward in *. cbn [snd] in Hsent.
    apply app_inj_tail in Hsent as [_ <-]. eexists. split; [now left|reflexivity].
  - destruct (String.eqb_spec name "web_search_responses") as [->|Hresp].
    + rewrite callTool_responses in *. unfold validate_then in *.
      destruct (parse V1_1_2.WebSearchResponsesSchema (Some args))
        as [[params|]|]; try now apply snoc_not_self in Hsent.
      unfold V1_1_2.performWebSearchResponses in *.
      rewrite run_tool_forward in *. cbn [snd] in Hsent.
      apply app_inj_tail in Hsent as [_ <-].
      eexists. split; [now right|reflexivity].
    + rewrite callTool_unknown in Hsent by done.
      now apply snoc_not_self in Hsent.
Qed.

(** The handler sends nothing or one request. *)
Lemma callTool_log name arguments log :
  (V1_1_2.callTool OPENAI_API_KEY remote name arguments log).2 = log
  \/ exists request,
       (V1_1_2.callTool OPENAI_API_KEY remote name arguments log).2
       = log ++ [request].
Proof.
  destruct arguments as [args|]; [|now left].
  destruct (String.eqb_spec name "web_search_chat_completion") as [->|Hchat].
  - rewrite callTool_chat_completion. unfold validate_then.
    destruct (parse _ _) as [[params|]|]; [|now left..].
    right. unfold performWebSearchChatCompletion. rewrite run_tool_forward. eauto.
  - destruct (String.eqb_spec name "web_search_responses") as [->|Hresp].
    + rewrite callTool_responses. unfold validate_then.
      destruct (parse _ _) as [[params|]|]; [|now left..].
      right. unfold V1_1_2.performWebSearchResponses.
      rewrite run_tool_forward. eauto.
    + left. now rewrite callTool_unknown.
Qed.

(** X4.  When the remote end answers the request that was sent with a
    status in 200-299 and a JSON body, the handler returns that body,
    wrapped as the single text content of the tool result. *)
Theorem X4_success_returns_remote_body
    name arguments log request response result :
  (V1_1_2.callTool OPENAI_API_KEY remote name arguments log).2
    = log ++ [request] ->
  remote request = Resolved response ->
  (200 <= status response <= 299)%N ->
  body_json response = inr result ->
  V1_1_2.callTool OPENAI_API_KEY remote name arguments log
  = (inr (JObj [("content",
                  JArr [JObj [("type", JStr "text"); ("text", result)]])]),
     log ++ [request]).
Proof.
  intros Hsent Hremote Hstatus Hjson.
  destruct (callTool_sent _ _ _ _ Hsent) as (label & _ & ->).
  unfold settle. rewrite Hremote.
  replace (ok response) with true; [now rewrite Hjson|].
  symmetry. unfold ok. apply andb_true_iff. split; apply N.leb_le; lia.
Qed.

(** X5.  When the call itself fails, the handler throws after that one
    request: a rejection with an [Error] comes back with the tool's prefix
    before its message, a rejection with any other value comes back
    unchanged, and so does, under the prefix, the parser's message when an
    answer in 200-299 has a body that is not JSON. *)
Theorem X5_transport_failures name arguments log request :
  (V1_1_2.callTool OPENAI_API_KEY remote name arguments log).2
    = log ++ [request] ->
  exists label,
    ((name = "web_search_chat_completion"
      /\ label = "Web search chat completion error: ")
     \/ (name = "web_search_responses"
         /\ label = "Web search responses error: "))
    /\ (forall message,
          remote request = Rejected (Error message) ->
          V1_1_2.callTool OPENAI_API_KEY remote name arguments log
          = (inl (Raised (Error (label +:+ message))), log ++ [request]))
    /\ (forall value,
          remote request = Rejected (NonError value) ->
          V1_1_2.callTool OPENAI_API_KEY remote name arguments log
          = (inl (Raised (NonError value)), log ++ [request]))
    /\ (forall response message,
          remote request = Resolved response ->
          ok response = true ->
          body_json response = inl message ->
          V1_1_2.callTool OPENAI_API_KEY remote name arguments log
          = (inl (Raised (Error (label +:+ message))), log ++ [request])).
Proof.
  intros Hsent. destruct (callTool_sent _ _ _ _ Hsent) as (label & Hlabel & ->).
  exists label. split; [exact Hlabel|]. unfold settle. repeat split.
  - now intros message ->.
  - now intros value ->.
  - intros response message -> -> ->. reflexivity.
Qed.

(** X6.  Every failure of the handler is one of: the invalid-input error;
    "Arguments are required"; "Unknown tool: " and the name; an [Error]
    whose message starts with the prefix of the tool that was called; or a
    value that is not an [Error], which the remote call was rejected
    with. *)
Theorem X6_failure_taxonomy name arguments log failure :
  (V1_1_2.callTool OPENAI_API_KEY remote name arguments log).1 = inl failure ->
  failure = InvalidInput
  \/ failure = Raised (Error "Arguments are required")
  \/ failure = Raised (Error ("Unknown tool: " +:+ name))
  \/ (exists message,
        name = "web_search_chat_completion"
        /\ failure
           = Raised (Error ("Web search chat completion error: " +:+ message)))
  \/ (exists message,
        name = "web_search_responses"
        /\ failure = Raised (Error ("Web search responses error: " +:+ message)))
  \/ (exists value request,
        failure = Raised (NonError value)
        /\ remote request = Rejected (NonError value)).
Proof.
  intros Hfail.
  destruct (callTool_log name arguments log) as [Hlog|[request Hsent]].
  - destruct arguments as [args|]; [|injection Hfail as <-; tauto].
    destruct (String.eqb_spec name "web_search_chat_completion") as [->|Hchat].
    + rewrite callTool_chat_completion in *. unfold validate_then in *.
      destruct (parse _ _) as [[params|]|];
        [|injection Hfail as <-; tauto..].
      unfold performWebSearchChatCompletion in Hlog.
      rewrite run_tool_forward in Hlog. now apply eq_sym, snoc_not_self in Hlog.
    + destruct (String.eqb_spec name "web_search_responses") as [->|Hresp].
      * rewrite callTool_responses in *. unfold validate_then in *.
        destruct (parse _ _) as [[params|]|];
          [|injection Hfail as <-; tauto..].
        unfold V1_1_2.performWebSearchResponses in Hlog.
        rewrite run_tool_forward in Hlog.
        now apply eq_sym, snoc_not_self in Hlog.
      * rewrite callTool_unknown in Hfail by done. injection Hfail as <-. tauto.
  - destruct (callTool_sent _ _ _ _ Hsent) as (label & Hlabel & Heq).
    rewrite Heq in Hfail. cbn [fst] in Hfail. unfold settle in Hfail.
    destruct (remote request) as [[message|value]|response] eqn:Hremote.
    + injection Hfail as <-. destruct Hlabel as [[-> ->]|[-> ->]]; eauto 10.
    + injection Hfail as <-. eauto 10.
    + destruct (ok response).
      * destruct (body_json response) as [message|result]; [|discriminate].
        injection Hfail as <-. destruct Hlabel as [[-> ->]|[-> ->]]; eauto 10.
      * injection Hfail as <-. destruct Hlabel as [[-> ->]|[-> ->]]; eauto 10.
Qed.

End HandlerFacts.


Lemma X2_witness :
  parse V1_1_2.WebSearchChatCompletionSchema
    (Some (JObj [("messages", JArr [wire_message "user" "hi"])])) = None
  /\ V1_1_2.callTool None ok_remote "web_search_chat_completion"
       (Some (JObj [("messages", JArr [wire_message "user" "hi"])])) []
     = (inl InvalidInput, []).
Proof.
  split; [reflexivity|].
  apply (X2_invalid_arguments_send_nothing None ok_remote
           "web_search_chat_completion" V1_1_2.WebSearchChatCompletionSchema).
  - apply list_elem_of_here.
  - reflexivity.
Defined.

Lemma X3_witness :
  let args :=
    JObj [("model", JStr "gpt-4o"); ("tools", JArr []);
          ("input", JStr "And tomorrow?")] in
  let request :=
    {| url := "https://api.openai.com/v1/responses";
       method := "POST";
       headers :=
         [("Content-Type", "application/json");
          ("Authorization", "Bearer undefined")];
       body := args |} in
  (V1_1_2.callTool None ok_remote "web_search_responses" (Some args) []).2
    = [] ++ [request]
  /\ method request = "POST"
  /\ headers request
     = [("Content-Type", "application/json");
        ("Authorization", "Bearer undefined")].
Proof.
  cbn zeta. split; [reflexivity|].
  destruct (X3_sent_request None ok_remote "web_search_responses"
              (Some (JObj [("model", JStr "gpt-4o"); ("tools", JArr []);
                           ("input", JStr "And tomorrow?")]))
              [] _ eq_refl) as (Hmethod & Hheaders & _).
  split; [exact Hmethod|exact Hheaders].
Defined.

Lemma X4_witness :
  let args :=
    JObj [("model", JStr "gpt-4o-search-preview");
          ("messages", JArr [wire_message "user" "hi"])] in
  exists request,
    (V1_1_2.callTool None ok_remote "web_search_chat_completion" (Some args) []).2
      = [] ++ [request]
    /\ V1_1_2.callTool None ok_remote "web_search_chat_completion" (Some args) []
       = (inr (JObj [("content",
                       JArr [JObj [("type", JStr "text"); ("text", JObj [])]])]),
          [] ++ [request]).
Proof.
  cbn zeta. eexists. split; [reflexivity|].
  apply (X4_success_returns_remote_body None ok_remote
           "web_search_chat_completion" _ [] _
           {| status := 200; body_text := "{}"; body_json := inr (JObj []) |}
           (JObj [])).
  - reflexivity.
  - reflexivity.
  - cbn. lia.
  - reflexivity.
Defined.

Lemma X5_witness :
  let args :=
    JObj [("model", JStr "gpt-4o"); ("tools", JArr []);
          ("input", JStr "And tomorrow?")] in
  exists request,
    (V1_1_2.callTool None failing_remote "web_search_responses" (Some args) []).2
      = [] ++ [request]
    /\ V1_1_2.callTool None failing_remote "web_search_responses" (Some args) []
       = (inl (Raised (Error "Web search responses error: fetch failed")),
          [] ++ [request]).
Proof.
  cbn zeta. eexists. split; [reflexivity|].
  destruct (X5_transport_failures None failing_remote "web_search_responses"
              (Some (JObj [("model", JStr "gpt-4o"); ("tools", JArr []);
                           ("input", JStr "And tomorrow?")]))
              [] _ eq_refl) as (label & [[Hname _]|[_ ->]] & Herror & _).
  - discriminate Hname.
  - exact (Herror "fetch failed" eq_refl).
Defined.

Lemma X6_witness :
  let args :=
    JObj [("model", JStr "gpt-4o"); ("tools", JArr []);
          ("input", JStr "And tomorrow?")] in
  let failure :=
    Raised (Error ("Web search responses error: OpenAI API Error: 429 - "
                     +:+ rate_limited)) in
  (V1_1_2.callTool None rate_limiting_remote "web_search_responses"
     (Some args) []).1 = inl failure
  /\ (failure = InvalidInput
      \/ failure = Raised (Error "Arguments are required")
      \/ failure = Raised (Error ("Unknown tool: " +:+ "web_search_responses"))
      \/ (exists message,
            "web_search_responses" = "web_search_chat_completion"
            /\ failure
               = Raised
                   (Error ("Web search chat completion error: " +:+ message)))
      \/ (exists message,
            "web_search_responses" = "web_search_responses"
            /\ failure
               = Raised (Error ("Web search responses error: " +:+ message)))
      \/ (exists value request,
            failure = Raised (NonError value)
            /\ rate_limiting_remote request = Rejected (NonError value))).
Proof.
  cbn zeta. split; [reflexivity|].
  apply (X6_failure_taxonomy None rate_limiting_remote "web_search_responses"
           (Some (JObj [("model", JStr "gpt-4o"); ("tools", JArr []);
                        ("input", JStr "And tomorrow?")])) []).
  reflexivity.
Defined.


(** ** What the bodies contain *)

Section BodyFacts.

Import V1_0_0.

Variable OPENAI_API_KEY : option string.
Variable remote : Request -> FetchOutcome.

Lemma get_absent k (o : js_object) : k ∉ o.*1 -> get k o = None.
Proof.
  unfold get. induction o as [|[k0 v0] rest IH]; cbn; intros Hk; [reflexivity|].
  apply not_elem_of_cons in Hk as [Hne Hk].
  destruct (String.eqb_spec k k0); [done|now apply IH].
Qed.

Lemma get_copy_defined_same src k' params o :
  get k' (copy_defined src k' params o) =
  match prop src params with
  | Some v => Some v
  | None => get k' o
  end.
Proof.
  unfold copy_defined. destruct (prop src params); [|reflexivity].
  now rewrite get_assign, String.eqb_refl.
Qed.

Lemma elem_of_copy_defined_keys x src k' params o :
  x ∈ (copy_defined src k' params o).*1 -> x = k' \/ x ∈ o.*1.
Proof.
  unfold copy_defined. destruct (prop src params); [|now right].
  now rewrite elem_of_assign_keys.
Qed.

Lemma requestBody_keys params r k :
  k ∈ (requestBody params r).*1 -> k ∈ responses_body_keys.
Proof.
  unfold requestBody. cbn zeta. intros H.
  repeat match type of H with
         | _ ∈ (copy_defined _ _ _ _).*1 =>
             apply elem_of_copy_defined_keys in H as [->|H];
             [apply (bool_decide_unpack _); reflexivity|]
         | _ ∈ (assign _ _ _).*1 =>
             apply elem_of_assign_keys in H as [->|H];
             [apply (bool_decide_unpack _); reflexivity|]
         | _ ∈ (match ?c with _ => _ end).*1 => destruct c
         end.
  all: cbn in H; unfold responses_body_keys;
    repeat (apply elem_of_cons in H as [->|H];
            [apply (bool_decide_unpack _); reflexivity|]);
    now apply elem_of_nil in H.
Qed.

Ltac read_body :=
  unfold requestBody; cbn zeta;
  repeat first
    [ rewrite get_copy_defined by reflexivity
    | rewrite get_copy_defined_same
    | rewrite get_assign
    | match goal with
      | |- context [get _ (match ?c with _ => _ end)] => destruct c
      end ].

Lemma requestBody_passthrough params r k :
  k ∈ passthrough_keys -> get k (requestBody params r) = prop k params.
Proof.
  unfold passthrough_keys. intros H.
  repeat (apply elem_of_cons in H as [->|H]); [..|now apply elem_of_nil in H].
  all: read_body; cbn; now repeat case_match.
Qed.

Lemma requestBody_renamed params r :
  get "max_output_tokens" (requestBody params r) = prop "max_tokens" params
  /\ get "text" (requestBody params r)
     = (fun format => JObj [("format", format)]) <$> prop "response_format" params.
Proof. split; read_body; cbn; now repeat case_match. Qed.

(** X8.  The chat-completion body has the keys [model], [messages] and
    [web_search_options] and no other, whatever else the parameters hold,
    and [web_search_options] is always there. *)
Theorem X8_chat_completion_body_keys params log k :
  k ∉ ["model"; "messages"; "web_search_options"] ->
  exists request,
    (performWebSearchChatCompletion OPENAI_API_KEY remote params log).2
      = log ++ [request]
    /\ prop k (body request) = None
    /\ is_Some (prop "web_search_options" (body request)).
Proof.
  intros Hk. eexists. split; [apply forward_log|].
  cbn [body post_request].
  rewrite !prop_JSON_stringify by (apply (bool_decide_unpack _); reflexivity).
  split.
  - apply get_absent. exact Hk.
  - unfold get, js_or. cbn [assoc String.eqb Ascii.eqb Bool.eqb mjoin option_join].
    destruct (prop "web_search_options" params) as [v|]; [|now eexists].
    destruct (truthy (Some v)); now eexists.
Qed.

(** X10.  Revision 1.0.0 forwards the optional parameters temperature,
    top_p, presence_penalty, frequency_penalty, truncation, stream, user,
    parallel_tool_calls and store under their own names, [max_tokens] as
    [max_output_tokens] and [response_format] as the [format] of [text];
    [model] and [tools] are forwarded as they are.  A parameter that is
    undefined leaves no key. *)
Theorem X10_optional_parameters_forwarded params log :
  exists request,
    (performWebSearchResponses OPENAI_API_KEY remote params log).2
      = log ++ [request]
    /\ (forall k, k ∈ passthrough_keys ->
         prop k (body request) = prop k params)
    /\ prop "max_output_tokens" (body request) = prop "max_tokens" params
    /\ prop "text" (body request)
       = (fun format => JObj [("format", format)])
           <$> prop "response_format" params
    /\ prop "model" (body request) = prop "model" params
    /\ prop "tools" (body request) = prop "tools" params.
Proof.
  eexists. split; [apply requestBody_sent|]. cbn [body post_request].
  split; [|rewrite !prop_JSON_stringify by apply requestBody_NoDup].
  - intros k Hk. rewrite prop_JSON_stringify by apply requestBody_NoDup.
    now apply requestBody_passthrough.
  - destruct (requestBody_renamed params
                (reshape (as_messages (prop "messages" params)))) as [-> ->].
    destruct (requestBody_model_tools params
                (reshape (as_messages (prop "messages" params)))) as [-> ->].
    now repeat split.
Qed.

(** X11.  The body revision 1.0.0 sends for [web_search_responses] has no
    key outside a fixed list of sixteen: the message sequence and the
    context are never sent, nor are [max_tokens] and [response_format]
    under those names. *)
Theorem X11_responses_body_keys params log k :
  k ∉ responses_body_keys ->
  exists request,
    (performWebSearchResponses OPENAI_API_KEY remote params log).2
      = log ++ [request]
    /\ prop k (body request) = None.
Proof.
  intros Hk. eexists. split; [apply requestBody_sent|]. cbn [body post_request].
  rewrite prop_JSON_stringify by apply requestBody_NoDup.
  apply get_absent. intros Hin. apply Hk. now apply requestBody_keys in Hin.
Qed.

(** X12.  The request's own [instructions] parameter is not forwarded:
    when the messages have no system-role message the body has no
    [instructions], whatever the parameters say. *)
Theorem X12_instructions_parameter_ignored params log :
  Forall (fun m => role m <> "system") (as_messages (prop "messages" params)) ->
  exists request,
    (performWebSearchResponses OPENAI_API_KEY remote params log).2
      = log ++ [request]
    /\ prop "instructions" (body request) = None.
Proof.
  intros Hno. eexists. split; [apply requestBody_sent|]. cbn [body post_request].
  rewrite prop_JSON_stringify by apply requestBody_NoDup.
  rewrite requestBody_instructions, reshape_instructions.
  unfold systemMessages. rewrite filter_none; [reflexivity|].
  eapply list.Forall_impl; [exact Hno|]. now intros m Hm.
Qed.

End BodyFacts.

Lemma X8_witness :
  let args :=
    JObj [("model", JStr "gpt-4o-search-preview");
          ("messages", JArr [wire_message "user" "hi"]);
          ("temperature", JNum 1%Qc)] in
  (("temperature" ∉ ["model"; "messages"; "web_search_options"])
   /\ parse V1_0_0.WebSearchChatCompletionSchema (Some args) = Some (Some args))
  /\ exists request,
       (V1_0_0.callTool None ok_remote "web_search_chat_completion"
          (Some args) []).2 = [] ++ [request]
       /\ prop "temperature" (body request) = None
       /\ is_Some (prop "web_search_options" (body request)).
Proof.
  cbn zeta.
  assert (Hk : "temperature" ∉ ["model"; "messages"; "web_search_options"])
    by (apply (bool_decide_unpack _); reflexivity).
  split; [split; [exact Hk|reflexivity]|].
  exact (X8_chat_completion_body_keys None ok_remote
           (JObj [("model", JStr "gpt-4o-search-preview");
                  ("messages", JArr [wire_message "user" "hi"]);
                  ("temperature", JNum 1%Qc)])
           [] "temperature" Hk).
Defined.

(** X9.  Revision 1.1.2 sends for [web_search_responses] the validated
    parameters, which keep [model], [tools] and [input] only: any other key
    of the arguments is dropped by validation and is not in the body. *)
Theorem X9_responses_arguments_stripped key remote args params log k :
  parse V1_1_2.WebSearchResponsesSchema (Some args) = Some (Some params) ->
  k ∉ ["model"; "tools"; "input"] ->
  exists request,
    (V1_1_2.callTool key remote "web_search_responses" (Some args) log).2
      = log ++ [request]
    /\ body request = params
    /\ prop k (body request) = None.
Proof.
  intros Hp Hk. eexists. split.
  { rewrite callTool_responses, (validate_then_accepts _ _ _ _ _ Hp), run_tool_log.
    apply forward_log. }
  cbn [body post_request]. split; [reflexivity|].
  destruct args as [| | | | |fields]; try discriminate Hp.
  unfold V1_1_2.WebSearchResponsesSchema in Hp.
  rewrite parse_object_unfold in Hp.
  match type of Hp with
  | match ?e with _ => _ end = _ => destruct e as [out|] eqn:Hshape
  end; [|discriminate].
  injection Hp as <-. cbn [prop].
  eapply parse_shape_strips; [|exact Hshape]. exact Hk.
Qed.

Lemma X9_witness :
  let args :=
    JObj [("model", JStr "gpt-4o"); ("tools", JArr []);
          ("input", JStr "And tomorrow?");
          ("previous_response_id", JStr "resp_123")] in
  let params :=
    JObj [("model", JStr "gpt-4o"); ("tools", JArr []);
          ("input", JStr "And tomorrow?")] in
  (parse V1_1_2.WebSearchResponsesSchema (Some args) = Some (Some params)
   /\ ("previous_response_id" ∉ ["model"; "tools"; "input"]))
  /\ exists request,
       (V1_1_2.callTool None ok_remote "web_search_responses" (Some args) []).2
         = [] ++ [request]
       /\ body request = params
       /\ prop "previous_response_id" (body request) = None.
Proof.
  cbn zeta.
  assert (Hk : "previous_response_id" ∉ ["model"; "tools"; "input"])
    by (apply (bool_decide_unpack _); reflexivity).
  split; [split; [reflexivity|exact Hk]|].
  exact (X9_responses_arguments_stripped None ok_remote
           (JObj [("model", JStr "gpt-4o"); ("tools", JArr []);
                  ("input", JStr "And tomorrow?");
                  ("previous_response_id", JStr "resp_123")])
           _ [] "previous_response_id" eq_refl Hk).
Defined.

Lemma X11_witness :
  let params :=
    JObj [("model", JStr "gpt-4o"); ("tools", JArr []);
          ("messages",
            JArr [wire_message "user" "What's the weather?";
                  wire_message "assistant" "Sunny.";
                  wire_message "user" "And tomorrow?"]);
          ("max_tokens", JNum 1%Qc)] in
  ("messages" ∉ responses_body_keys)
  /\ exists request,
       (V1_0_0.performWebSearchResponses None ok_remote params []).2
         = [] ++ [request]
       /\ prop "messages" (body request) = None.
Proof.
  cbn zeta.
  assert (Hk : "messages" ∉ responses_body_keys)
    by (apply (bool_decide_unpack _); reflexivity).
  split; [exact Hk|].
  exact (X11_responses_body_keys None ok_remote _ [] "messages" Hk).
Defined.

Lemma X12_witness :
  let params :=
    JObj [("model", JStr "gpt-4o"); ("tools", JArr []);
          ("messages", JArr [wire_message "user" "And tomorrow?"]);
          ("instructions", JStr "Be formal")] in
  (parse V1_0_0.WebSearchResponsesSchema (Some params) = Some (Some params)
   /\ Forall (fun m => V1_0_0.role m <> "system")
        (V1_0_0.as_messages (prop "messages" params)))
  /\ exists request,
       (V1_0_0.performWebSearchResponses None ok_remote params []).2
         = [] ++ [request]
       /\ prop "instructions" (body request) = None.
Proof.
  cbn zeta.
  assert (Hno : Forall (fun m => V1_0_0.role m <> "system")
            (V1_0_0.as_messages
               (prop "messages"
                  (JObj [("model", JStr "gpt-4o"); ("tools", JArr []);
                         ("messages", JArr [wire_message "user" "And tomorrow?"]);
                         ("instructions", JStr "Be formal")]))))
    by (repeat constructor; discriminate).
  split; [split; [reflexivity|exact Hno]|].
  exact (X12_instructions_parameter_ignored None ok_remote _ [] Hno).
Defined.

(** ** More on the message reshaper *)

Section ReshaperFacts.

Import V1_0_0.

Lemma Forall_filter_holds (P : Message -> Prop) `{!forall x, Decision (P x)}
    (ms : list Message) :
  Forall P (filter P ms).
Proof.
  apply list.Forall_forall. intros x Hx.
  now apply list_elem_of_filter in Hx as [Hx _].
Qed.

Lemma filter_filter_same (P : Message -> Prop) `{!forall x, Decision (P x)}
    (ms : list Message) :
  filter P (filter P ms) = filter P ms.
Proof.
  induction ms as [|m ms IH]; [reflexivity|].
  rewrite filter_cons. case_decide; [|exact IH].
  now rewrite filter_cons_True, IH.
Qed.

(** X13.  Whenever there is a non-system message, the context is a prefix
    of the non-system messages and [input] is the content of the message
    right after it; that message is the last non-system message, or it is a
    user-role message with content and no user-role message follows it.  No
    system-role message is in the context. *)
Theorem X13_input_follows_context ms :
  nonSystemMessages ms <> [] ->
  exists m rest,
    nonSystemMessages ms = previousMessages (reshape ms) ++ m :: rest
    /\ input (reshape ms) = content m
    /\ (rest = []
        \/ (role m = "user" /\ content m <> ""
            /\ Forall (fun x => role x <> "user") rest))
    /\ Forall (fun x => role x <> "system") (previousMessages (reshape ms)).
Proof.
  intros Hne. rewrite reshape_unfold. cbn zeta.
  pose proof (Forall_filter_holds (fun m => role m <> "system") ms) as Hsys.
  fold (nonSystemMessages ms) in Hsys.
  destruct (exists_snoc _ Hne) as (init & l & Hsnoc).
  destruct (last_user_cases (nonSystemMessages ms))
    as [Hno|(pre & m & post & Hsplit & Hm & Hpost)].
  - rewrite find_last_user_none by done.
    rewrite Hsnoc, use_last_message_empty. cbn [fst snd].
    exists l, []. split; [reflexivity|]. split; [reflexivity|].
    split; [now left|].
    rewrite Hsnoc in Hsys. now apply list.Forall_app in Hsys as [Hsys _].
  - assert (Hfind :
      find_last_user (nonSystemMessages ms) (length (nonSystemMessages ms))
        ("", []) = (content m, pre))
      by (rewrite Hsplit; now apply find_last_user_found).
    rewrite Hfind. destruct (decide (content m = "")) as [Hc|Hc].
    + rewrite Hc, Hsnoc, use_last_message_empty. cbn [fst snd].
      exists l, []. split; [reflexivity|]. split; [reflexivity|].
      split; [now left|].
      rewrite Hsnoc in Hsys. now apply list.Forall_app in Hsys as [Hsys _].
    + rewrite use_last_message_nonempty by done. cbn [fst snd].
      exists m, post. split; [exact Hsplit|]. split; [reflexivity|].
      split; [right; now repeat split|].
      rewrite Hsplit in Hsys. now apply list.Forall_app in Hsys as [Hsys _].
Qed.

Lemma X13_witness :
  let ms := [{| role := "system"; content := "Be concise" |};
             {| role := "user"; content := "What's the weather?" |};
             {| role := "assistant"; content := "Sunny." |};
             {| role := "user"; content := "And tomorrow?" |};
             {| role := "assistant"; content := "Rain." |}] in
  nonSystemMessages ms <> []
  /\ exists m rest,
       nonSystemMessages ms = previousMessages (reshape ms) ++ m :: rest
       /\ input (reshape ms) = content m
       /\ (rest = []
           \/ (role m = "user" /\ content m <> ""
               /\ Forall (fun x => role x <> "user") rest))
       /\ Forall (fun x => role x <> "system") (previousMessages (reshape ms)).
Proof.
  cbn zeta.
  assert (Hne : nonSystemMessages
            [{| role := "system"; content := "Be concise" |};
             {| role := "user"; content := "What's the weather?" |};
             {| role := "assistant"; content := "Sunny." |};
             {| role := "user"; content := "And tomorrow?" |};
             {| role := "assistant"; content := "Rain." |}] <> [])
    by discriminate.
  split; [exact Hne|]. exact (X13_input_follows_context _ Hne).
Defined.

(** X14.  System-role messages, wherever they stand in the sequence, do
    not change [input] or the context, and the other messages do not
    change [instructions]: reshaping the sequence agrees with reshaping
    each partition alone. *)
Theorem X14_partitions_are_independent ms :
  input (reshape ms) = input (reshape (nonSystemMessages ms))
  /\ previousMessages (reshape ms)
     = previousMessages (reshape (nonSystemMessages ms))
  /\ instructions (reshape ms) = instructions (reshape (systemMessages ms))
  /\ instructions (reshape (nonSystemMessages ms)) = None
  /\ input (reshape (systemMessages ms)) = "".
Proof.
  rewrite !reshape_unfold. cbn zeta. cbn [input previousMessages instructions].
  unfold nonSystemMessages, systemMessages. rewrite !filter_filter_same.
  repeat split.
  - rewrite (filter_none (fun m => role m = "system")); [reflexivity|].
    eapply list.Forall_impl; [apply Forall_filter_holds|]. now intros m Hm.
  - rewrite (filter_none (fun m => role m <> "system")); [reflexivity|].
    eapply list.Forall_impl; [apply Forall_filter_holds|].
    intros m Hm Hn. now apply Hn.
Qed.

End ReshaperFacts.

(** ** What the chat-completion validator lets through *)

Section ValidatorFacts.

Lemma parse_object_inv shape d v :
  parse (z_object shape) d = Some v ->
  exists fields out,
    d = Some (JObj fields) /\ parse_shape fields shape = Some out
    /\ v = Some (JObj out).
Proof.
  destruct d as [[| | | | |fields]|]; try discriminate.
  rewrite parse_object_unfold.
  destruct (parse_shape fields shape) as [out|] eqn:Hshape; [|discriminate].
  intros [= <-]. now exists fields, out.
Qed.

Lemma parse_shape_cons_inv fields k t rest out :
  parse_shape fields ((k, t) :: rest) = Some out ->
  exists v out',
    parse t (assoc k fields) = Some v /\ parse_shape fields rest = Some out'
    /\ out = opt_field k v ++ out'.
Proof.
  rewrite parse_shape_cons.
  destruct (parse t (assoc k fields)) as [[v|]|] eqn:Hv; [| |discriminate];
    (destruct (parse_shape fields rest) as [out'|] eqn:Hrest; [|discriminate]);
    intros [= <-]; eauto.
Qed.

Lemma parse_optional_string_inv text d v :
  parse (describe (optional z_string) text) d = Some v ->
  exists os : option string, v = JStr <$> os.
Proof.
  destruct d as [[| | |s| |]|]; try discriminate; intros [= <-].
  - now exists (Some s).
  - now exists None.
Qed.

Lemma parse_country_inv text d v :
  parse (describe (optional (z_string_length 2)) text) d = Some v ->
  exists os : option string,
    v = JStr <$> os /\ forall c, os = Some c -> String.length c = 2.
Proof.
  destruct d as [[| | |s| |]|]; try discriminate.
  - cbn. destruct (Nat.eqb_spec (String.length s) 2) as [Hs|]; [|discriminate].
    intros [= <-]. exists (Some s). split; [reflexivity|]. now intros c [= <-].
  - intros [= <-]. now exists None.
Qed.

Lemma parse_context_size_inv text d v :
  parse (describe (optional (z_enum ["low"; "medium"; "high"])) text) d = Some v ->
  exists oc : option ContextSize, v = JStr <$> (size_name <$> oc).
Proof.
  destruct d as [[| | |s| |]|]; try discriminate.
  - cbn. destruct (String.eqb_spec s "low") as [->|];
      [intros [= <-]; now exists (Some low)|].
    destruct (String.eqb_spec s "medium") as [->|];
      [intros [= <-]; now exists (Some medium)|].
    destruct (String.eqb_spec s "high") as [->|];
      [intros [= <-]; now exists (Some high)|discriminate].
  - intros [= <-]. now exists None.
Qed.

Lemma parse_model_inv text d v :
  parse
    (describe (z_enum ["gpt-4o-search-preview"; "gpt-4o-mini-search-preview"])
       text) d = Some v ->
  exists mo : SearchModel, v = Some (JStr (model_name mo)).
Proof.
  destruct d as [[| | |s| |]|]; try discriminate. cbn.
  destruct (String.eqb_spec s "gpt-4o-search-preview") as [->|];
    [intros [= <-]; now exists gpt_4o_search_preview|].
  destruct (String.eqb_spec s "gpt-4o-mini-search-preview") as [->|];
    [intros [= <-]; now exists gpt_4o_mini_search_preview|discriminate].
Qed.

Lemma parse_location_inv d v :
  parse
    (describe (optional ApproximateLocationSchema)
       "Optional user location to refine search results") d = Some v ->
  exists oa : option Approximate,
    v = location_json <$> oa
    /\ forall a c, oa = Some a -> country a = Some c -> String.length c = 2.
Proof.
  destruct d as [y|]; [|intros [= <-]; now exists None].
  rewrite parse_describe, parse_optional_defined.
  unfold ApproximateLocationSchema. intros Hp.
  apply parse_object_inv in Hp as (g & out & [= ->] & Hshape & ->).
  apply parse_shape_cons_inv in Hshape as (vt & out1 & Htype & Hshape & ->).
  apply parse_shape_cons_inv in Hshape as (va & out2 & Happrox & Hshape & ->).
  injection Hshape as <-.
  assert (vt = Some (JStr "approximate")) as ->.
  { destruct (assoc "type" g) as [[| | |s| |]|]; try discriminate Htype.
    revert Htype. cbn. destruct (String.eqb_spec s "approximate") as [Hs|];
      [|discriminate]. intros [= <-]. now rewrite Hs. }
  apply parse_object_inv in Happrox as (h & out & _ & Hshape & ->).
  apply parse_shape_cons_inv in Hshape as (v1 & out1 & H1 & Hshape & ->).
  apply parse_shape_cons_inv in Hshape as (v2 & out2 & H2 & Hshape & ->).
  apply parse_shape_cons_inv in Hshape as (v3 & out3 & H3 & Hshape & ->).
  apply parse_shape_cons_inv in Hshape as (v4 & out4 & H4 & Hshape & ->).
  injection Hshape as <-.
  apply parse_country_inv in H1 as (co & -> & Hco).
  apply parse_optional_string_inv in H2 as (ci & ->).
  apply parse_optional_string_inv in H3 as (re & ->).
  apply parse_optional_string_inv in H4 as (tz & ->).
  exists (Some {| country := co; city := ci; region := re; timezone := tz |}).
  split.
  - unfold location_json, approximate_json. cbn [fmap option_fmap option_map
      country city region timezone opt_field app].
    now rewrite !app_nil_r.
  - intros a c [= <-]. cbn [country]. apply Hco.
Qed.

Lemma parse_options_inv d v :
  parse WebSearchOptionsSchema d = Some v ->
  exists oo : option SearchOptions,
    v = options_json <$> oo /\ forall o, oo = Some o -> valid_options o.
Proof.
  destruct d as [y|]; [|intros [= <-]; now exists None].
  unfold WebSearchOptionsSchema. rewrite parse_describe, parse_optional_defined.
  intros Hp. apply parse_object_inv in Hp as (g & out & _ & Hshape & ->).
  apply parse_shape_cons_inv in Hshape as (v1 & out1 & H1 & Hshape & ->).
  apply parse_shape_cons_inv in Hshape as (v2 & out2 & H2 & Hshape & ->).
  injection Hshape as <-.
  apply parse_location_inv in H1 as (oa & -> & Hoa).
  apply parse_context_size_inv in H2 as (oc & ->).
  exists (Some {| user_location := oa; search_context_size := oc |}).
  split.
  - unfold options_json. cbn [fmap option_fmap option_map
      user_location search_context_size].
    now rewrite !app_nil_r.
  - intros o [= <-] a c Ha Hc. cbn [user_location] in Ha. now apply (Hoa a c).
Qed.

Lemma wire_messages_typed (ms : list V1_0_0.Message) :
  Forall
    (fun m =>
       existsb (String.eqb (V1_0_0.role m))
         ["user"; "assistant"; "system"; "developer"] = true) ms ->
  exists cms,
    map (fun m => wire_message (V1_0_0.role m) (V1_0_0.content m)) ms
    = map message_json cms.
Proof.
  induction 1 as [|[r c] ms Hr _ [cms IH]]; [now exists []|].
  cbn in Hr.
  assert (Hrole : exists ro, r = role_name ro).
  { destruct (String.eqb_spec r "user") as [->|]; [now exists user|].
    destruct (String.eqb_spec r "assistant") as [->|]; [now exists assistant|].
    destruct (String.eqb_spec r "system") as [->|]; [now exists system|].
    destruct (String.eqb_spec r "developer") as [->|]; [now exists developer|].
    discriminate Hr. }
  destruct Hrole as [ro ->].
  exists ({| msg_role := ro; msg_content := c |} :: cms).
  cbn [map]. now rewrite IH.
Qed.

Lemma parse_chat_messages_inv d v :
  parse ChatMessagesSchema d = Some v ->
  exists cms, v = Some (JArr (map message_json cms)).
Proof.
  unfold ChatMessagesSchema. rewrite parse_describe.
  destruct d as [[| | | |items|]|]; try discriminate.
  rewrite parse_array. destruct (mapM _ items) as [out|] eqn:Hm; [|discriminate].
  intros [= <-]. destruct (mapM_wire_messages _ _ _ Hm) as [-> Hall].
  destruct (wire_messages_typed _ Hall) as [cms ->]. now exists cms.
Qed.

(** X15.  Whatever the chat-completion validator of revision 1.1.2
    accepts, it returns the JSON of a well-typed request: a model of the
    two, messages with roles user, assistant, system or developer, options
    whose country code has length 2.  That result is accepted again
    unchanged. *)
Theorem X15_validated_is_well_typed args params :
  parse V1_1_2.WebSearchChatCompletionSchema (Some args) = Some (Some params) ->
  exists r,
    valid_request r /\ params = request_json r
    /\ parse V1_1_2.WebSearchChatCompletionSchema (Some params)
       = Some (Some params).
Proof.
  unfold V1_1_2.WebSearchChatCompletionSchema at 1. intros Hp.
  apply parse_object_inv in Hp as (fields & out & _ & Hshape & [= ->]).
  apply parse_shape_cons_inv in Hshape as (v1 & out1 & H1 & Hshape & ->).
  apply parse_shape_cons_inv in Hshape as (v2 & out2 & H2 & Hshape & ->).
  apply parse_shape_cons_inv in Hshape as (v3 & out3 & H3 & Hshape & ->).
  injection Hshape as <-.
  apply parse_model_inv in H1 as (mo & ->).
  apply parse_chat_messages_inv in H2 as (cms & ->).
  apply parse_options_inv in H3 as (oo & -> & Hoo).
  set (r := {| model := mo; messages := cms; web_search_options := oo |}).
  assert (Hv : valid_request r) by (intros o Ho; now apply Hoo).
  assert (Hjson :
    JObj (opt_field "model" (Some (JStr (model_name mo)))
          ++ opt_field "messages" (Some (JArr (map message_json cms)))
          ++ opt_field "web_search_options" (options_json <$> oo) ++ [])
    = request_json r) by (unfold request_json; now rewrite app_nil_r).
  exists r. split; [exact Hv|]. split; [exact Hjson|].
  rewrite Hjson. now apply parse_request_json.
Qed.

Lemma X15_witness :
  let args :=
    JObj [("messages", JArr [JObj [("content", JStr "hi"); ("role", JStr "user");
                                   ("name", JStr "Ada")]]);
          ("web_search_options",
            JObj [("search_context_size", JStr "low")]);
          ("model", JStr "gpt-4o-mini-search-preview");
          ("stream", JBool true)] in
  let r :=
    {| model := gpt_4o_mini_search_preview;
       messages := [{| msg_role := user; msg_content := "hi" |}];
       web_search_options :=
         Some {| user_location := None; search_context_size := Some low |} |} in
  parse V1_1_2.WebSearchChatCompletionSchema (Some args)
    = Some (Some (request_json r))
  /\ exists r',
       valid_request r' /\ request_json r = request_json r'
       /\ parse V1_1_2.WebSearchChatCompletionSchema (Some (request_json r))
          = Some (Some (request_json r)).
Proof.
  cbn zeta. split; [reflexivity|].
  exact (X15_validated_is_well_typed
           (JObj [("messages",
                    JArr [JObj [("content", JStr "hi"); ("role", JStr "user");
                                ("name", JStr "Ada")]]);
                  ("web_search_options",
                    JObj [("search_context_size", JStr "low")]);
                  ("model", JStr "gpt-4o-mini-search-preview");
                  ("stream", JBool true)])
           _ eq_refl).
Defined.

End ValidatorFacts.

(** ** What the chat-completion validator turns away *)

Section RejectionFacts.

Variable OPENAI_API_KEY : option string.
Variable remote : Request -> FetchOutcome.

Lemma parse_object_rejects shape x k t :
  (k, t) ∈ shape -> parse t (prop k x) = None ->
  parse (z_object shape) (Some x) = None.
Proof.
  intros Hin Hk. destruct x as [| | | | |fields]; try reflexivity.
  rewrite parse_object_unfold.
  now rewrite (parse_shape_rejects fields shape k t Hin Hk).
Qed.

Lemma parse_model_rejects text d :
  (forall s, d = Some (JStr s) ->
     s <> "gpt-4o-search-preview" /\ s <> "gpt-4o-mini-search-preview") ->
  parse
    (describe (z_enum ["gpt-4o-search-preview"; "gpt-4o-mini-search-preview"])
       text) d = None.
Proof.
  intros Hd. destruct d as [[| | |s| |]|]; try reflexivity.
  destruct (Hd s eq_refl) as [H1 H2]. cbn.
  destruct (String.eqb_spec s "gpt-4o-search-preview"); [done|].
  now destruct (String.eqb_spec s "gpt-4o-mini-search-preview").
Qed.

Lemma callTool_chat_completion_1_0_0 args log :
  V1_0_0.callTool OPENAI_API_KEY remote "web_search_chat_completion"
    (Some args) log
  = validate_then V1_0_0.WebSearchChatCompletionSchema args
      (performWebSearchChatCompletion OPENAI_API_KEY remote) log.
Proof. reflexivity. Qed.

(** X16.  A chat-completion call whose [model] is missing, is not a
    string, or is a string other than the two search models is turned away
    as invalid input in both revisions, and no request is sent. *)
Theorem X16_model_is_enforced args log :
  (forall s, prop "model" args = Some (JStr s) ->
     s <> "gpt-4o-search-preview" /\ s <> "gpt-4o-mini-search-preview") ->
  V1_1_2.callTool OPENAI_API_KEY remote "web_search_chat_completion"
    (Some args) log = (inl InvalidInput, log)
  /\ V1_0_0.callTool OPENAI_API_KEY remote "web_search_chat_completion"
       (Some args) log = (inl InvalidInput, log).
Proof.
  intros Hmodel. split.
  - rewrite callTool_chat_completion. apply validate_then_rejects.
    eapply parse_object_rejects; [apply list_elem_of_here|].
    now apply parse_model_rejects.
  - rewrite callTool_chat_completion_1_0_0. apply validate_then_rejects.
    eapply parse_object_rejects; [apply list_elem_of_here|].
    now apply parse_model_rejects.
Qed.

Lemma parse_options_country_rejects options location approximate c :
  prop "user_location" options = Some location ->
  prop "approximate" location = Some approximate ->
  prop "country" approximate = Some (JStr c) ->
  String.length c <> 2 ->
  parse WebSearchOptionsSchema (Some options) = None.
Proof.
  intros Hlocation Happroximate Hcountry Hc.
  unfold WebSearchOptionsSchema. rewrite parse_describe, parse_optional_defined.
  eapply parse_object_rejects; [apply list_elem_of_here|].
  rewrite Hlocation, parse_describe, parse_optional_defined.
  unfold ApproximateLocationSchema.
  eapply parse_object_rejects;
    [apply list_elem_of_further, list_elem_of_here|].
  rewrite Happroximate.
  eapply parse_object_rejects; [apply list_elem_of_here|].
  rewrite Hcountry. cbn.
  now destruct (Nat.eqb_spec (String.length c) 2).
Qed.

(** X17.  A chat-completion call whose user location has a country code of
    a length other than 2 is turned away as invalid input in both
    revisions, and no request is sent. *)
Theorem X17_country_code_has_length_two
    args options location approximate c log :
  prop "web_search_options" args = Some options ->
  prop "user_location" options = Some location ->
  prop "approximate" location = Some approximate ->
  prop "country" approximate = Some (JStr c) ->
  String.length c <> 2 ->
  V1_1_2.callTool OPENAI_API_KEY remote "web_search_chat_completion"
    (Some args) log = (inl InvalidInput, log)
  /\ V1_0_0.callTool OPENAI_API_KEY remote "web_search_chat_completion"
       (Some args) log = (inl InvalidInput, log).
Proof.
  intros Hoptions Hlocation Happroximate Hcountry Hc.
  pose proof (parse_options_country_rejects _ _ _ _
                Hlocation Happroximate Hcountry Hc) as Hp.
  split.
  - rewrite callTool_chat_completion. apply validate_then_rejects.
    eapply parse_object_rejects;
      [do 2 apply list_elem_of_further; apply list_elem_of_here|].
    now rewrite Hoptions.
  - rewrite callTool_chat_completion_1_0_0. apply validate_then_rejects.
    eapply parse_object_rejects;
      [do 2 apply list_elem_of_further; apply list_elem_of_here|].
    now rewrite Hoptions.
Qed.

(** X18.  The tools the listing advertises are the two the call handler
    serves: a name is listed exactly when a call with arguments under that
    name is not answered with "Unknown tool". *)
Theorem X18_listed_tools_are_served zodToJsonSchema name :
  tool_names (V1_1_2.listTools zodToJsonSchema)
    = ["web_search_chat_completion"; "web_search_responses"]
  /\ (name ∈ tool_names (V1_1_2.listTools zodToJsonSchema) <->
      forall args log,
        V1_1_2.callTool OPENAI_API_KEY remote name (Some args) log
        <> (inl (Raised (Error ("Unknown tool: " +:+ name))), log)).
Proof.
  split; [reflexivity|].
  change (tool_names (V1_1_2.listTools zodToJsonSchema))
    with ["web_search_chat_completion"; "web_search_responses"].
  split.
  - intros Hin args log Heq.
    destruct (callTool_log OPENAI_API_KEY remote name (Some args) log)
      as [Hlog|[request Hsent]].
    + apply elem_of_cons in Hin as [->|Hin];
        [|apply list_elem_of_singleton in Hin as ->].
      * rewrite callTool_chat_completion in *. unfold validate_then in *.
        destruct (parse _ _) as [[params|]|]; try discriminate Heq.
        unfold performWebSearchChatCompletion in Hlog.
        rewrite run_tool_forward in Hlog.
        now apply eq_sym, snoc_not_self in Hlog.
      * rewrite callTool_responses in *. unfold validate_then in *.
        destruct (parse _ _) as [[params|]|]; try discriminate Heq.
        unfold V1_1_2.performWebSearchResponses in Hlog.
        rewrite run_tool_forward in Hlog.
        now apply eq_sym, snoc_not_self in Hlog.
    + rewrite Heq in Hsent. now apply snoc_not_self in Hsent.
  - intros Hserved.
    destruct (String.eqb_spec name "web_search_chat_completion") as [->|Hchat];
      [apply list_elem_of_here|].
    destruct (String.eqb_spec name "web_search_responses") as [->|Hresp];
      [apply list_elem_of_further, list_elem_of_here|].
    destruct (Hserved (JObj []) []). now apply callTool_unknown.
Qed.

End RejectionFacts.

Lemma X16_witness :
  let args :=
    JObj [("model", JStr "gpt-4o");
          ("messages", JArr [wire_message "user" "hi"])] in
  (forall s, prop "model" args = Some (JStr s) ->
     s <> "gpt-4o-search-preview" /\ s <> "gpt-4o-mini-search-preview")
  /\ V1_1_2.callTool None ok_remote "web_search_chat_completion" (Some args) []
     = (inl InvalidInput, [])
  /\ V1_0_0.callTool None ok_remote "web_search_chat_completion" (Some args) []
     = (inl InvalidInput, []).
Proof.
  cbn zeta.
  assert (Hmodel : forall s,
    prop "model"
      (JObj [("model", JStr "gpt-4o");
             ("messages", JArr [wire_message "user" "hi"])]) = Some (JStr s) ->
    s <> "gpt-4o-search-preview" /\ s <> "gpt-4o-mini-search-preview")
    by (intros s [= <-]; split; discriminate).
  split; [exact Hmodel|].
  exact (X16_model_is_enforced None ok_remote _ [] Hmodel).
Defined.

Lemma X17_witness :
  let approximate := JObj [("country", JStr "USA"); ("city", JStr "New York")] in
  let location :=
    JObj [("type", JStr "approximate"); ("approximate", approximate)] in
  let options := JObj [("user_location", location)] in
  let args :=
    JObj [("model", JStr "gpt-4o-search-preview");
          ("messages", JArr [wire_message "user" "hi"]);
          ("web_search_options", options)] in
  String.length "USA" <> 2
  /\ V1_1_2.callTool None ok_remote "web_search_chat_completion" (Some args) []
     = (inl InvalidInput, [])
  /\ V1_0_0.callTool None ok_remote "web_search_chat_completion" (Some args) []
     = (inl InvalidInput, []).
Proof.
  cbn zeta.
  assert (Hc : String.length "USA" <> 2) by discriminate.
  split; [exact Hc|].
  exact (X17_country_code_has_length_two None ok_remote
           (JObj [("model", JStr "gpt-4o-search-preview");
                  ("messages", JArr [wire_message "user" "hi"]);
                  ("web_search_options",
                    JObj [("user_location",
                            JObj [("type", JStr "approximate");
                                  ("approximate",
                                    JObj [("country", JStr "USA");
                                          ("city", JStr "New York")])])])])
           _ _ _ "USA" [] eq_refl eq_refl eq_refl eq_refl Hc).
Defined.

(** ** Error formatting *)

Lemma string_app_assoc (a b c : string) : (a +:+ b) +:+ c = a +:+ b +:+ c.
Proof.
  induction a as [|x a IH]; [reflexivity|].
  change (String x ((a +:+ b) +:+ c) = String x (a +:+ b +:+ c)).
  now rewrite IH.
Qed.

Lemma digits_then_inj (sep : Ascii.ascii) (d1 d2 r1 r2 : string) :
  is_digit sep = false ->
  digits d1 = true -> digits d2 = true ->
  d1 +:+ String sep r1 = d2 +:+ String sep r2 -> d1 = d2 /\ r1 = r2.
Proof.
  intros Hsep. revert d2.
  induction d1 as [|c d1 IH]; intros [|c' d2] H1 H2 Heq; cbn in *.
  - now inversion Heq.
  - inversion Heq; subst. rewrite Hsep in H2. discriminate.
  - inversion Heq; subst. rewrite Hsep in H1. discriminate.
  - apply andb_prop in H1 as [_ H1]. apply andb_prop in H2 as [_ H2].
    inversion Heq; subst. now destruct (IH d2 H1 H2) as [-> ->].
Qed.

Lemma shown_status_text (status : option N) :
  match status with
  | Some n => if N.eqb n 0 then "" else "(" +:+ pretty n +:+ ")"
  | None => ""
  end
  = match shown_status status with
    | Some n => "(" +:+ pretty n +:+ ")"
    | None => ""
    end.
Proof. destruct status as [n|]; [|reflexivity]. cbn. now destruct (N.eqb n 0). Qed.

(** X19.  The text [formatOpenAIError] gives determines what it was given:
    the kind of error, its message, and the status it shows.  A status of 0
    is not shown, like a status that is unset. *)
Theorem X19_format_determines_error (e1 e2 : ErrorObject) :
  formatOpenAIError e1 = formatOpenAIError e2 ->
  match e1, e2 with
  | PlainError m1, PlainError m2 => m1 = m2
  | OpenAIAPIError m1 s1, OpenAIAPIError m2 s2 =>
      m1 = m2 /\ shown_status s1 = shown_status s2
  | _, _ => False
  end.
Proof.
  destruct e1 as [m1|m1 s1], e2 as [m2|m2 s2]; cbn [formatOpenAIError];
    try discriminate.
  - apply string_app_inv_head.
  - intros H. apply string_app_inv_head in H.
    rewrite !shown_status_text in H.
    destruct (shown_status s1) as [n1|], (shown_status s2) as [n2|];
      try discriminate H.
    + rewrite !string_app_assoc in H. apply string_app_inv_head in H.
      change (pretty n1 +:+ String (Ascii.ascii_of_nat 41) (": " +:+ m1)
              = pretty n2 +:+ String (Ascii.ascii_of_nat 41) (": " +:+ m2)) in H.
      apply digits_then_inj in H as [Hn H];
        [|reflexivity|apply pretty_N_digits..].
      apply (inj pretty) in Hn as ->.
      now apply (string_app_inv_head ": ") in H.
    + now apply (string_app_inv_head ": ") in H.
Qed.

Lemma X19_witness :
  formatOpenAIError (OpenAIAPIError "rate limited" (Some 0%N))
    = formatOpenAIError (OpenAIAPIError "rate limited" None)
  /\ shown_status (Some 0%N) = shown_status None.
Proof.
  assert (H : formatOpenAIError (OpenAIAPIError "rate limited" (Some 0%N))
              = formatOpenAIError (OpenAIAPIError "rate limited" None))
    by reflexivity.
  split; [exact H|].
  exact (proj2 (X19_format_determines_error _ _ H)).
Defined.

(** ** Validation, reshaping and forwarding together *)

(** X20.  In revision 1.0.0 a [web_search_responses] call that passes
    validation sends one request to the responses endpoint whose [input]
    and [instructions] are the reshaper's for the messages of the arguments
    as they were given: validation changes no role and no content, and
    every message that reaches the reshaper has role user, assistant or
    system. *)
Theorem X20_reshaper_reads_the_arguments key remote args params log :
  parse V1_0_0.WebSearchResponsesSchema (Some args) = Some (Some params) ->
  Forall
    (fun m =>
       V1_0_0.role m = "user" \/ V1_0_0.role m = "assistant"
       \/ V1_0_0.role m = "system")
    (V1_0_0.as_messages (prop "messages" args))
  /\ exists request,
       (V1_0_0.callTool key remote "web_search_responses" (Some args) log).2
         = log ++ [request]
       /\ url request = "https://api.openai.com/v1/responses"
       /\ reshaped_form (V1_0_0.as_messages (prop "messages" args))
            (body request).
Proof.
  intros Hp.
  destruct (validated_messages _ _ Hp) as (ms & Hargs & Hparams & _ & Hroles).
  rewrite Hargs. split.
  - eapply list.Forall_impl; [exact Hroles|]. intros m Hm. cbn in Hm.
    destruct (String.eqb_spec (V1_0_0.role m) "user"); [tauto|].
    destruct (String.eqb_spec (V1_0_0.role m) "assistant"); [tauto|].
    destruct (String.eqb_spec (V1_0_0.role m) "system"); [tauto|].
    discriminate Hm.
  - change (V1_0_0.callTool key remote "web_search_responses" (Some args))
      with (validate_then V1_0_0.WebSearchResponsesSchema args
              (V1_0_0.performWebSearchResponses key remote)).
    rewrite (validate_then_accepts _ _ _ _ _ Hp), run_tool_log.
    eexists. split; [apply requestBody_sent|]. split; [reflexivity|].
    unfold reshaped_form. cbn [body post_request].
    rewrite !prop_JSON_stringify by apply requestBody_NoDup.
    now rewrite requestBody_input, requestBody_instructions, Hparams.
Qed.

Lemma X20_witness :
  let args :=
    JObj [("messages",
            JArr [JObj [("content", JStr "Be concise"); ("role", JStr "system")];
                  JObj [("role", JStr "user"); ("content", JStr "And tomorrow?");
                        ("name", JStr "Ada")]]);
          ("tools", JArr [JObj [("type", JStr "web_search_preview")]]);
          ("model", JStr "gpt-4o")] in
  exists request,
    (V1_0_0.callTool None ok_remote "web_search_responses" (Some args) []).2
      = [] ++ [request]
    /\ body request
       = JObj [("model", JStr "gpt-4o");
               ("tools", JArr [JObj [("type", JStr "web_search_preview")]]);
               ("input", JStr "And tomorrow?");
               ("instructions", JStr "Be concise")]
    /\ reshaped_form (V1_0_0.as_messages (prop "messages" args)) (body request).
Proof.
  cbn zeta.
  destruct (X20_reshaper_reads_the_arguments None ok_remote
              (JObj [("messages",
                       JArr [JObj [("content", JStr "Be concise");
                                   ("role", JStr "system")];
                             JObj [("role", JStr "user");
                                   ("content", JStr "And tomorrow?");
                                   ("name", JStr "Ada")]]);
                     ("tools", JArr [JObj [("type", JStr "web_search_preview")]]);
                     ("model", JStr "gpt-4o")])
              _ [] eq_refl) as (_ & request & Hsent & _ & Hform).
  exists request. split; [exact Hsent|]. split; [|exact Hform].
  cbn in Hsent. now injection Hsent as <-.
Defined.
